(** * minus80: a freezer alarm monitor for the Raspberry Pi

    A shallow embedding of [app/FreezerData.py], [app/Email.py],
    [app/Event.py] and [app/Board.py], and the properties of the alert
    escalation flow proved about it.

    The Python methods become functions in a small monad [M]: a reader of
    the outside world ([Env]: the pin, the mail server, the clock, the CSV
    file), a state ([World]: the attribute [Board.__input_status], which
    every thread of the program shares, and how far each device has been
    read), a writer of the observable actions (log records, sleeps, mails
    handed to the SMTP server, threads started) and Python's exceptions.
    The unbounded [while] loops take a fuel argument. *)

From Stdlib Require Import ZArith List Ascii String Lia.
From stdpp Require Import base option list strings gmap pretty.

#[local] Open Scope string_scope.
#[local] Open Scope list_scope.
#[local] Open Scope Z_scope.

(* ================================================================== *)
(** * Python values *)
(* ================================================================== *)

(** The line feed of the f-strings. *)
Definition nl : string := String "010"%char EmptyString.

(** [str(v)] of a value that is a string or [None], as an f-string or
    a [%s] of the logger prints it. *)
Definition pystr (v : option string) : string := default "None" v.

(** Truth value of [Board.__input_status]: [None] and [0] are false. *)
Definition truthy (s : option Z) : bool :=
  match s with
  | Some z => negb (z =? 0)
  | None => false
  end.

(** [s == v] for the attribute [s] and an integer [v]. *)
Definition py_eq (s : option Z) (v : Z) : bool :=
  match s with
  | Some z => z =? v
  | None => false
  end.

(** Instants ([datetime]) and durations ([timedelta], the argument of
    [sleep]) are counted in microseconds, the resolution of [datetime]. *)
Definition sec (n : Z) : Z := n * 1000000.
Definition msec (n : Z) : Z := n * 1000.
Definition timedelta (days seconds : Z) : Z := sec (days * 86400 + seconds).

(** The exceptions the program meets; all are subclasses of [Exception].
    [OtherException cls msg] is one of another class, by the name of the
    class: [IsADirectoryError] or [PermissionError] from [open],
    [UnicodeDecodeError] or [csv.Error] from the reader. *)
Inductive exn :=
| Exception (msg : string)
| KeyError (key : string)
| FileNotFoundError
| OtherException (cls msg : string).

Inductive level := INFO | ERROR | CRITICAL.

(** An argument of a logging call. *)
Inductive logarg :=
| LStr (s : string)
| LInt (n : Z)
| LExn (e : exn).

(** The message [Email.send_email] builds; [From] is the fixed sender. *)
Record MIMEText := {
  msg_to : option string;
  msg_subject : string;
  msg_body : string
}.

(** What a run does that can be seen from outside, in order. *)
Inductive action :=
| ALog (lvl : level) (fmt : string) (args : list logarg)
| ASleep (us : Z)
| AWaitEdge
| AStartThread (name : string)
| ASendmail (m : MIMEText) (error : option string).

(* ================================================================== *)
(** * The outside world and the state *)
(* ================================================================== *)

(** What reading the CSV file gives: the lines [csv.reader] yields and,
    if reading fails at some point, the exception it raises after them
    (with [None] the reader ends after the lines). *)
Record csv_file := {
  csv_lines : list (list string);
  csv_error : option exn
}.

(** A file that is read to its end. *)
Definition readable (lines : list (list string)) : csv_file :=
  {| csv_lines := lines; csv_error := None |}.

(** The devices are oracles indexed by the number of times they were used:
    the [n]-th call of [GPIO.input], of [smtplib]'s [sendmail] ([None]: the
    mail went out; [Some d]: it raised with detail [d]), of
    [datetime.now()] and of [open] on the CSV file ([inl e]: [open]
    raises [e]; otherwise what reading the file gives). [it_email] is
    [mail_data["it_email"]], of the module [app.mail_data] which is not
    part of the sources. *)
Record Env := {
  pin : Z;
  ip : string;
  it_email : string;
  strftime : Z -> string -> string;
  gpio_input : nat -> Z;
  smtp_sendmail : nat -> option string;
  clock_now : nat -> Z;
  csv_open : nat -> exn + csv_file
}.

Record World := {
  input_status : option Z;
  gpio_n : nat;
  smtp_n : nat;
  clock_n : nat;
  csv_n : nat
}.

Definition with_input_status (s : option Z) (w : World) : World :=
  {| input_status := s; gpio_n := gpio_n w; smtp_n := smtp_n w;
     clock_n := clock_n w; csv_n := csv_n w |}.
Definition tick_gpio (w : World) : World :=
  {| input_status := input_status w; gpio_n := S (gpio_n w);
     smtp_n := smtp_n w; clock_n := clock_n w; csv_n := csv_n w |}.
Definition advance_smtp (k : nat) (w : World) : World :=
  {| input_status := input_status w; gpio_n := gpio_n w;
     smtp_n := (k + smtp_n w)%nat; clock_n := clock_n w; csv_n := csv_n w |}.
Definition tick_smtp (w : World) : World := advance_smtp 1 w.
Definition tick_clock (w : World) : World :=
  {| input_status := input_status w; gpio_n := gpio_n w;
     smtp_n := smtp_n w; clock_n := S (clock_n w); csv_n := csv_n w |}.
Definition tick_csv (w : World) : World :=
  {| input_status := input_status w; gpio_n := gpio_n w;
     smtp_n := smtp_n w; clock_n := clock_n w; csv_n := S (csv_n w) |}.

(* ================================================================== *)
(** * The monad *)
(* ================================================================== *)

(** A run returns, raises, or is cut when its fuel is spent; in each
    case with the actions done so far. *)
Inductive result (A : Type) :=
| Ok (a : A) (w : World) (t : list action)
| Raise (e : exn) (w : World) (t : list action)
| OutOfFuel (t : list action).
Arguments Ok {A} a w t.
Arguments Raise {A} e w t.
Arguments OutOfFuel {A} t.

Definition trace_of {A} (r : result A) : list action :=
  match r with
  | Ok _ _ t | Raise _ _ t | OutOfFuel t => t
  end.

Definition M (A : Type) : Type := Env -> World -> result A.

(** [t] happened before [r]. *)
Definition after {A} (t : list action) (r : result A) : result A :=
  match r with
  | Ok a w t' => Ok a w (t ++ t')
  | Raise e w t' => Raise e w (t ++ t')
  | OutOfFuel t' => OutOfFuel (t ++ t')
  end.

Definition ret {A} (a : A) : M A := fun _ w => Ok a w [].

Definition bind {A B} (m : M A) (k : A -> M B) : M B :=
  fun E w =>
    match m E w with
    | Ok a w1 t1 => after t1 (k a E w1)
    | Raise e w1 t1 => Raise e w1 t1
    | OutOfFuel t1 => OutOfFuel t1
    end.

Definition raise {A} (e : exn) : M A := fun _ w => Raise e w [].

(** [try: m except Exception as error: h error]. *)
Definition try_except {A} (m : M A) (h : exn -> M A) : M A :=
  fun E w =>
    match m E w with
    | Raise e w1 t1 => after t1 (h e E w1)
    | r => r
    end.

Definition out_of_fuel {A} : M A := fun _ _ => OutOfFuel [].

Definition emit (a : action) : M unit := fun _ w => Ok tt w [a].

Definition ask {A} (f : Env -> A) : M A := fun E w => Ok (f E) w [].

Notation "'let*' x ':=' m 'in' k" := (bind m (fun x => k))
  (at level 10, x name, m at level 100, k at level 200, only parsing).
Notation "m ';;;' k" := (bind m (fun _ => k))
  (at level 100, k at level 200, right associativity, only parsing).

(** ** The primitives *)

Definition log (lvl : level) (fmt : string) (args : list logarg) : M unit :=
  emit (ALog lvl fmt args).

Definition sleep (us : Z) : M unit := emit (ASleep us).

Definition datetime_now : M Z :=
  fun E w => Ok (clock_now E (clock_n w)) (tick_clock w) [].

Definition GPIO_input : M Z :=
  fun E w => Ok (gpio_input E (gpio_n w)) (tick_gpio w) [].

Definition GPIO_wait_for_edge : M unit := emit AWaitEdge.

(* ================================================================== *)
(** * FreezerData.py *)
(* ================================================================== *)

Module FreezerData.

(** A row of [csv.DictReader]: a dictionary from the field names to a
    string, or to [None] where the line was too short, and, where the
    line was too long, the key [None] bound to the list of the values
    left over. [{}] is [empty_dict]. *)
Record dict := Dict {
  fields : gmap string (option string);
  rest : option (list string)
}.

Definition empty_dict : dict := Dict ∅ None.

Definition is_empty (d : dict) : bool :=
  bool_decide (fields d = ∅) && bool_decide (rest d = None).

(** [dict(zip(fieldnames, row))]: a later binding of a name wins. *)
Definition dict_zip (fieldnames row : list string)
  : gmap string (option string) :=
  foldl (fun d kv => <[kv.1 := Some kv.2]> d) ∅ (zip fieldnames row).

(** [DictReader.__next__] on one line that is not empty. *)
Definition make_row (fieldnames row : list string) : dict :=
  let d := dict_zip fieldnames row in
  let lf := length fieldnames in
  let lr := length row in
  if (lf <? lr)%nat then Dict d (Some (drop lf row))
  else if (lr <? lf)%nat then
    Dict (foldl (fun d key => <[key := None]> d) d (drop lr fieldnames)) None
  else Dict d None.

(** [csv.DictReader(csv_file)]: the first line gives the field names,
    empty lines are skipped. *)
Definition DictReader (lines : list (list string)) : list dict :=
  match lines with
  | [] => []
  | fieldnames :: rows =>
      map (make_row fieldnames)
          (filter (fun r => r <> []) rows)
  end.

Record t := mk { data : dict }.

(** [__init__]. *)
Definition init : t := mk empty_dict.
Definition get_data (self : t) : dict := data self.
Definition set_data (d : dict) (self : t) : t := mk d.

(** The [for row in reader] loop of [parse_csv]; [row["IP"]] raises
    [KeyError] when the row has no such key, and the reader raises
    [pending], if any, when asked for a row after its last. *)
Fixpoint parse_rows (ip : string) (reader : list dict) (pending : option exn)
    (self : t) : exn + t :=
  match reader with
  | [] =>
      match pending with
      | Some e => inl e
      | None => inr self
      end
  | row :: reader' =>
      match fields row !! "IP" with
      | None => inl (KeyError "IP")
      | Some v =>
          if bool_decide (v = Some ip) then inr (set_data row self)
          else parse_rows ip reader' pending self
      end
  end.

(** [open(self.__csv_file, newline='')] and what its reader gives. *)
Definition open_csv : M csv_file :=
  fun E w =>
    match csv_open E (csv_n w) with
    | inr file => Ok file (tick_csv w) []
    | inl e => Raise e (tick_csv w) []
    end.

Definition parse_csv (ip : string) (self : t) : M t :=
  let* file := open_csv in
  match parse_rows ip (DictReader (csv_lines file)) (csv_error file) self with
  | inl e => raise e
  | inr self' => ret self'
  end.

End FreezerData.

(* ================================================================== *)
(** * Email.py *)
(* ================================================================== *)

Module Email.

(** The attributes that vary; server, port, password and sender are
    read from [mail_data]. *)
Record t := mk {
  recipient : option string;
  subject : string;
  body : string
}.

Definition set_subject (s : string) (self : t) : t :=
  mk (recipient self) s (body self).

Definition get_recipient (self : t) : option string := recipient self.

(** The message [send_email] builds. *)
Definition message (self : t) : MIMEText :=
  {| msg_to := recipient self; msg_subject := subject self;
     msg_body := body self |}.

(** [send_email] hands the message to the server; every failure is
    raised again as [Exception(error)]. *)
Definition send_email (self : t) : M unit :=
  fun E w =>
    let message := message self in
    match smtp_sendmail E (smtp_n w) with
    | None => Ok tt (tick_smtp w) [ASendmail message None]
    | Some d => Raise (Exception d) (tick_smtp w) [ASendmail message (Some d)]
    end.

End Email.

(* ================================================================== *)
(** * Event.py *)
(* ================================================================== *)

Module Event.

Record t := mk {
  event_time : Z;
  status : string
}.

(** [__init__(event_time, event_type)]. *)
Definition init (event_time : Z) (event_type : option Z) : t :=
  mk event_time (if truthy event_type then "ALARM" else "RECOVERY").

Definition get_event_time (self : t) : Z := event_time self.
Definition get_event_status (self : t) : string := status self.

(** The interval the retry loop sleeps: the literal of [sleep(5)]. *)
Definition retry_interval : Z := sec 5.

(** One pass of [while not email_sent] gives the new values of
    [email_sent] and [failure_count]. *)
Definition handle_email_error_pass (email : Email.t) (failure_count : Z)
  : M (bool * Z) :=
  sleep retry_interval ;;;
  try_except
    (Email.send_email email ;;;
     log INFO "Email sent to %s." [LStr (pystr (Email.get_recipient email))] ;;;
     ret (true, failure_count))
    (fun error =>
       let failure_count := failure_count + 1 in
       log CRITICAL "Failure attempt #%i" [LInt failure_count] ;;;
       log CRITICAL "Failure to send email to %s."
           [LStr (pystr (Email.get_recipient email))] ;;;
       log CRITICAL "ERROR DETAILS: %s" [LExn error] ;;;
       ret (false, failure_count)).

Fixpoint handle_email_error_loop (fuel : nat) (email : Email.t)
    (failure_count : Z) : M unit :=
  match fuel with
  | O => out_of_fuel
  | S fuel' =>
      let* r := handle_email_error_pass email failure_count in
      if r.1 then ret tt
      else handle_email_error_loop fuel' email r.2
  end.

Definition handle_email_error (fuel : nat) (email : Email.t) : M unit :=
  handle_email_error_loop fuel email 0.

(** The message [handle_error] writes to the IT team. *)
Definition it_subject (error_message : string) : string :=
  "!!! -80 ALERT !!! " +:+ error_message.

Definition it_body (self : t) (E : Env) (error_message : string) : string :=
  "Minus 80 alarm status: " +:+ get_event_status self +:+ ". "
  +:+ nl +:+ "Event time: "
  +:+ strftime E (get_event_time self) "%d/%m/%Y %H:%M:%S"
  +:+ nl +:+ "Error: " +:+ error_message +:+ "."
  +:+ nl +:+ "Check syslog for further error details.".

Definition handle_error (fuel : nat) (self : t) (error : exn)
    (error_message : string) : M unit :=
  log ERROR "%s." [LStr error_message] ;;;
  log ERROR "DETAILS: %s" [LExn error] ;;;
  let subject := it_subject error_message in
  let* body := ask (fun E => it_body self E error_message) in
  let* it := ask it_email in
  let email := Email.mk (Some it) subject body in
  try_except
    (Email.send_email email ;;;
     log INFO "Email sent to %s." [LStr (pystr (Email.get_recipient email))])
    (fun error =>
       let error_message := error_message +:+ " AND email IT team" in
       log CRITICAL "ERROR: %s." [LStr error_message] ;;;
       log CRITICAL
         "Attempting to email IT team every 5 minutes until successful." [] ;;;
       log CRITICAL "DETAILS: %s" [LExn error] ;;;
       let email := Email.set_subject error_message email in
       handle_email_error fuel email).

(** [data[key]]. *)
Definition getitem (data : FreezerData.dict) (key : string)
  : M (option string) :=
  match FreezerData.fields data !! key with
  | Some v => ret v
  | None => raise (KeyError key)
  end.

(** The message [notify_recipients] writes to the freezer's owner. *)
Definition primary_subject (self : t) (date time location : string)
  : string :=
  if String.eqb (get_event_status self) "ALARM" then
    "!!! -80 ALARM !!! Problem detected on "
    +:+ date +:+ " at " +:+ time +:+ " in " +:+ location
  else
    "!!! -80 RECOVERY !!! Recovery detected on "
    +:+ date +:+ " at " +:+ time +:+ " in " +:+ location.

Definition primary_body (self : t) (date time location : string) : string :=
  if String.eqb (get_event_status self) "ALARM" then
    "ALARM event detected on " +:+ date +:+ " at " +:+ time +:+ ". "
    +:+ nl +:+ "There is a problem with the -80 in " +:+ location +:+ "."
  else
    "RECOVERY event detected on " +:+ date +:+ " at " +:+ time
    +:+ " for minus 80 in " +:+ location +:+ ".".

Definition notify_recipients (fuel : nat) (self : t)
    (freezer_data : FreezerData.t) (success_message : string) : M unit :=
  log INFO "%s." [LStr success_message] ;;;
  let data := FreezerData.get_data freezer_data in
  let* date := ask (fun E => strftime E (get_event_time self) "%m/%d/%Y") in
  let* time := ask (fun E => strftime E (get_event_time self) "%H:%M:%S") in
  let* location := getitem data "Location" in
  let subject := primary_subject self date time (pystr location) in
  let body := primary_body self date time (pystr location) in
  let* recipient := getitem data "Email" in
  let email := Email.mk recipient subject body in
  try_except
    (Email.send_email email ;;;
     log INFO "Email sent to %s." [LStr (pystr (Email.get_recipient email))])
    (fun error =>
       let error_message :=
         "!!! -80 ALERT !!! Failure to email "
         +:+ pystr (Email.get_recipient email) in
       handle_error fuel self error error_message).

(** The [try] statement of [alert]: the lookup, which gives [parsed]
    and the [FreezerData] object. *)
Definition lookup (fuel : nat) (self : t) (ip : string)
  : M (bool * FreezerData.t) :=
  let freezer_data := FreezerData.init in
  try_except
    (let* freezer_data := FreezerData.parse_csv ip freezer_data in
     if FreezerData.is_empty (FreezerData.get_data freezer_data)
     then raise (Exception "CSV data returned empty.")
     else ret (true, freezer_data))
    (fun error =>
       let error_message := "Failed to parse CSV file" in
       handle_error fuel self error error_message ;;;
       ret (false, freezer_data)).

(** [alert(ip, board_logger)]. *)
Definition alert (fuel : nat) (self : t) (ip : string) : M unit :=
  let* r := lookup fuel self ip in
  if r.1 then
    let success_message := "Parsed CSV file for freezer data" in
    notify_recipients fuel self r.2 success_message
  else ret tt.

End Event.

(* ================================================================== *)
(** * Board.py *)
(* ================================================================== *)

Module Board.

(** The re-alert window and step: the literals of [timedelta(0, 60)]
    and [sleep(10)]. *)
Definition total_duration : Z := timedelta 0 60.
Definition sub_interval : Z := sec 10.

(** The attribute [__input_status] is the one piece of state that the
    threads share. *)
Definition get_input_status : M (option Z) :=
  fun _ w => Ok (input_status w) w [].

Definition set_input_status (s : Z) : M unit :=
  fun _ w => Ok tt (with_input_status (Some s) w) [].

(** ["ALARM" if self.get_input_status() else "RECOVERY"]. *)
Definition status_name (s : option Z) : string :=
  if truthy s then "ALARM" else "RECOVERY".

(** [initiate_event]: logs the change and starts a thread that runs
    [alert]. *)
Definition initiate_event : M unit :=
  let* s := get_input_status in
  let status :=
    if truthy s then "ALARM; initiating alarm event." else "RECOVERY." in
  log INFO "Pin input status changed to %s" [LStr status] ;;;
  emit (AStartThread "EventThread").

(** [monitor], up to the [while True]. *)
Definition monitor_start : M unit :=
  let* p := ask pin in
  log INFO "Beginning monitor of input for pin %s." [LInt p] ;;;
  let* v := GPIO_input in
  set_input_status v ;;;
  let* s := get_input_status in
  log INFO "Initital status: %s" [LStr (status_name s)] ;;;
  let* s := get_input_status in
  if py_eq s 1 then initiate_event else ret tt.

(** One pass of [while True]. *)
Definition monitor_pass : M unit :=
  log INFO "Monitoring for pin changes..." [] ;;;
  GPIO_wait_for_edge ;;;
  sleep (msec 5) ;;;
  let* s := get_input_status in
  let* v := GPIO_input in
  if negb (bool_decide (s = Some v)) then
    let* v' := GPIO_input in
    set_input_status v' ;;;
    initiate_event
  else ret tt.

Fixpoint monitor_loop (n : nat) : M unit :=
  match n with
  | O => ret tt
  | S n' => monitor_pass ;;; monitor_loop n'
  end.

(** [monitor] never returns: [monitor n] is its run up to the end of
    the [n]-th pass of the loop. *)
Definition monitor (n : nat) : M unit :=
  monitor_start ;;; monitor_loop n.

(** The [while current_time < end_time] of [check_alert]. *)
Fixpoint check_alert_loop (fuel afuel : nat) (event : Event.t)
    (current_time end_time alarm_counter : Z) : M unit :=
  if current_time <? end_time then
    match fuel with
    | O => out_of_fuel
    | S fuel' =>
        sleep sub_interval ;;;
        let* v := GPIO_input in
        if v =? 1 then
          let alarm_counter := alarm_counter + 1 in
          log INFO "Alarm Cycle #%s: Initiating event alert."
              [LStr (pretty alarm_counter)] ;;;
          let* ip := ask ip in
          Event.alert afuel event ip ;;;
          let* current_time := datetime_now in
          check_alert_loop fuel' afuel event current_time end_time
                           alarm_counter
        else
          log INFO "Alarm state recovery." []
    end
  else ret tt.

Definition check_alert (fuel : nat) (event : Event.t) : M unit :=
  let* current_time := datetime_now in
  let end_time := current_time + total_duration in
  check_alert_loop fuel fuel event current_time end_time 0 ;;;
  let* s := get_input_status in
  log INFO "End check alarm cycle. Current pin input status is %s."
      [LStr (status_name s)].

(** [alert] up to the return of [event.alert]. *)
Definition alert_notify (fuel : nat) : M Event.t :=
  let* now := datetime_now in
  let* s := get_input_status in
  let event := Event.init now s in
  let* ip := ask ip in
  Event.alert fuel event ip ;;;
  ret event.

(** [alert] from the test of the input status on. *)
Definition alert_cycle (fuel : nat) (event : Event.t) : M unit :=
  let* s := get_input_status in
  if py_eq s 1 then
    log INFO "Alarm state active; starting check alert cycle for 6 cycles."
        [] ;;;
    check_alert fuel event
  else ret tt.

Definition alert (fuel : nat) : M unit :=
  let* event := alert_notify fuel in
  alert_cycle fuel event.

(** The event thread runs beside the thread of [monitor]: in
    [alert_beside_monitor fuel n], the monitor makes [n] passes of its
    loop between the return of [event.alert] and the test of the input
    status. [alert fuel] is the schedule with [n = 0]. *)
Definition alert_beside_monitor (fuel n : nat) : M unit :=
  let* event := alert_notify fuel in
  monitor_loop n ;;;
  alert_cycle fuel event.

End Board.

(* ================================================================== *)
(** * Observations on a trace *)
(* ================================================================== *)

(** The delivery attempts: each message handed to the server and how
    that ended. *)
Fixpoint sends (t : list action) : list (MIMEText * option string) :=
  match t with
  | [] => []
  | ASendmail m r :: t' => (m, r) :: sends t'
  | _ :: t' => sends t'
  end.

(** The values logged as [Failure attempt #%i]. *)
Fixpoint failure_counts (t : list action) : list Z :=
  match t with
  | [] => []
  | ALog CRITICAL "Failure attempt #%i" [LInt n] :: t' =>
      n :: failure_counts t'
  | _ :: t' => failure_counts t'
  end.

(** The sleeps, in order. *)
Fixpoint sleeps (t : list action) : list Z :=
  match t with
  | [] => []
  | ASleep us :: t' => us :: sleeps t'
  | _ :: t' => sleeps t'
  end.

(** The number of threads started. *)
Fixpoint threads_started (t : list action) : nat :=
  match t with
  | [] => O
  | AStartThread _ :: t' => S (threads_started t')
  | _ :: t' => threads_started t'
  end.

(** The record [Board.alert] logs right before it calls [check_alert]. *)
Definition cycle_start : action :=
  ALog INFO "Alarm state active; starting check alert cycle for 6 cycles." [].

Definition is_cycle_start (a : action) : bool :=
  match a with
  | ALog INFO "Alarm state active; starting check alert cycle for 6 cycles."
         [] => true
  | _ => false
  end.

(** [check_alert] was called in the run that left the trace [t]. *)
Definition cycle_entered (t : list action) : bool := existsb is_cycle_start t.

(** ** The passes of the retry loop *)

(** A pass that fails with the detail [d] and logs the counter [count],
    and the pass that delivers. *)
Definition failed_pass (email : Email.t) (count : Z) (d : string)
  : list action :=
  [ ASleep Event.retry_interval;
    ASendmail (Email.message email) (Some d);
    ALog CRITICAL "Failure attempt #%i" [LInt count];
    ALog CRITICAL "Failure to send email to %s."
         [LStr (pystr (Email.get_recipient email))];
    ALog CRITICAL "ERROR DETAILS: %s" [LExn (Exception d)] ].

Definition delivered_pass (email : Email.t) : list action :=
  [ ASleep Event.retry_interval;
    ASendmail (Email.message email) None;
    ALog INFO "Email sent to %s." [LStr (pystr (Email.get_recipient email))] ].

(** The passes that fail with the details [ds], after [count] failures. *)
Fixpoint failed_passes (email : Email.t) (count : Z) (ds : list string)
  : list action :=
  match ds with
  | [] => []
  | d :: ds' => failed_pass email (count + 1) d
                ++ failed_passes email (count + 1) ds'
  end.

(** From its [n]-th mail on, the server fails [length ds] mails in a row,
    with the details [ds]. *)
Fixpoint smtp_fails (E : Env) (n : nat) (ds : list string) : Prop :=
  match ds with
  | [] => True
  | d :: ds' => smtp_sendmail E n = Some d /\ smtp_fails E (S n) ds'
  end.

(** ** The lookup *)

(** The exception the lookup of [Event.alert] ends with, if it fails. *)
Definition lookup_error (ip : string) (E : Env) (w : World) : option exn :=
  match FreezerData.parse_csv ip FreezerData.init E w with
  | Raise e _ _ => Some e
  | Ok fd _ _ =>
      if FreezerData.is_empty (FreezerData.get_data fd)
      then Some (Exception "CSV data returned empty.")
      else None
  | OutOfFuel _ => None
  end.

(** The row the lookup of [Event.alert] finds, if it succeeds. *)
Definition lookup_data (ip : string) (E : Env) (w : World)
  : option FreezerData.dict :=
  match FreezerData.parse_csv ip FreezerData.init E w with
  | Ok fd _ _ =>
      if FreezerData.is_empty (FreezerData.get_data fd) then None
      else Some (FreezerData.get_data fd)
  | _ => None
  end.

(** The message of [notify_recipients] for the row [data]. *)
Definition primary_message (self : Event.t) (E : Env)
    (location recipient : option string) : MIMEText :=
  let date := strftime E (Event.get_event_time self) "%m/%d/%Y" in
  let time := strftime E (Event.get_event_time self) "%H:%M:%S" in
  {| msg_to := recipient;
     msg_subject := Event.primary_subject self date time (pystr location);
     msg_body := Event.primary_body self date time (pystr location) |}.

(** The first message of [handle_error]. *)
Definition it_message (self : Event.t) (E : Env) (error_message : string)
  : MIMEText :=
  {| msg_to := Some (it_email E);
     msg_subject := Event.it_subject error_message;
     msg_body := Event.it_body self E error_message |}.

(** ** One pass of the monitor *)

(** A pass up to the reads of the pin. *)
Definition quiet_pass : list action :=
  [ ALog INFO "Monitoring for pin changes..." []; AWaitEdge; ASleep (msec 5) ].

(** What [initiate_event] does when the input status is [s]. *)
Definition event_initiated (s : option Z) : list action :=
  [ ALog INFO "Pin input status changed to %s"
      [LStr (if truthy s then "ALARM; initiating alarm event."
             else "RECOVERY.")];
    AStartThread "EventThread" ].

(* ================================================================== *)
(** * Scenarios *)
(* ================================================================== *)

(** A file on which the test of [tests/test_freezer_data.py] passes:
    thirteen values under twelve field names, an empty line, and a
    second row with the address of the third freezer. *)
Definition freezer_test_csv : list (list string) :=
  [ ["Freezer Number"; "Department"; "PI"; "Email"; "MFG"; "Model Number";
     "Location"; "Jack Number"; "IP"; "Hostname"; "MAC"; "Comments"];
    ["1"; "Chemistry"; "Person1"; "minus80-Person1@chem.umass.edu";
     "Thermo Fisher"; "TSU 500D"; "LGRT 1"; ""; "92.168.1.98";
     "minus80-Person1-1"; "aa:bb:cc:dd:ee:fd"; ""; ""];
    [];
    ["3"; "Chemistry"; "Person3"; "minus80-Person3@chem.umass.edu";
     "Thermo Fisher"; "TSU 500D"; "LGRT 3"; ""; "92.168.1.100";
     "minus80-Person3-1"; "aa:bb:cc:dd:ee:ff"; ""; ""];
    ["4"; "Chemistry"; "Person4"; "minus80-Person4@chem.umass.edu";
     "Thermo Fisher"; "TSU 500D"; "LGRT 4"; ""; "92.168.1.100";
     "minus80-Person4-1"; "aa:bb:cc:dd:ee:fe"; ""; ""] ].

(** Its field names and the row of the third freezer. *)
Definition freezer_test_fieldnames : list string :=
  ["Freezer Number"; "Department"; "PI"; "Email"; "MFG"; "Model Number";
   "Location"; "Jack Number"; "IP"; "Hostname"; "MAC"; "Comments"].

Definition freezer_3 : FreezerData.dict :=
  FreezerData.make_row freezer_test_fieldnames
    ["3"; "Chemistry"; "Person3"; "minus80-Person3@chem.umass.edu";
     "Thermo Fisher"; "TSU 500D"; "LGRT 3"; ""; "92.168.1.100";
     "minus80-Person3-1"; "aa:bb:cc:dd:ee:ff"; ""; ""].

(** The file with the lines [lines], read to its end; with [None], no
    file. *)
Definition file_of (lines : option (list (list string))) : exn + csv_file :=
  match lines with
  | Some lines => inr (readable lines)
  | None => inl FileNotFoundError
  end.

(** A board on pin 11 at 92.168.1.100 whose clock advances by the
    re-alert step from one reading to the next; [strftime] is left
    undecoded. *)
Definition scenario (gpio : nat -> Z) (smtp : nat -> option string)
    (csv : nat -> option (list (list string))) : Env :=
  {| pin := 11;
     ip := "92.168.1.100";
     it_email := "it@test.edu";
     strftime := fun _ fmt => fmt;
     gpio_input := gpio;
     smtp_sendmail := smtp;
     clock_now := fun n => Z.of_nat n * Board.sub_interval;
     csv_open := fun n => file_of (csv n) |}.

Definition world (s : option Z) : World :=
  {| input_status := s; gpio_n := 0; smtp_n := 0; clock_n := 0; csv_n := 0 |}.

(** The mail server fails its first [n] mails. *)
Definition down_for (n : nat) (k : nat) : option string :=
  if (k <? n)%nat then Some "Connection refused" else None.

(** The pin stays HIGH, the first mail is not delivered. *)
Definition primary_down : Env :=
  scenario (fun _ => 1) (down_for 1) (fun _ => Some freezer_test_csv).

(** The pin stays HIGH, there is no CSV file, the mail server works. *)
Definition no_csv : Env :=
  scenario (fun _ => 1) (down_for 0) (fun _ => None).

(** The pin stays HIGH and everything works. *)
Definition all_well : Env :=
  scenario (fun _ => 1) (down_for 0) (fun _ => Some freezer_test_csv).

(** The pin is HIGH for the first [n] reads and LOW from then on. *)
Definition high_for (n : nat) (k : nat) : Z := if (k <? n)%nat then 1 else 0.

Definition recovers_after (n : nat) : Env :=
  scenario (high_for n) (down_for 0) (fun _ => Some freezer_test_csv).

(** The pin is LOW. *)
Definition pin_low : Env :=
  scenario (fun _ => 0) (down_for 0) (fun _ => Some freezer_test_csv).

(** The pin reads HIGH, then LOW, within one pass of the monitor. *)
Definition bounce : Env :=
  scenario (fun k => match k with O => 1 | _ => 0 end) (down_for 0)
           (fun _ => Some freezer_test_csv).

(* ================================================================== *)
(** * Notions used in the statements *)
(* ================================================================== *)

(** The retry loop on [email], given [fuel] passes from the world [w]
    with [count] failures counted, ended in [r]: either the server failed
    [length ds < fuel] mails and delivered the next, and the loop
    returned after these passes; or it failed [fuel] mails and the loop
    has not returned. *)
Definition retry_outcome (E : Env) (w : World) (email : Email.t) (count : Z)
    (fuel : nat) (r : result unit) : Prop :=
  (exists ds,
     (length ds < fuel)%nat
     /\ smtp_fails E (smtp_n w) ds
     /\ smtp_sendmail E (length ds + smtp_n w) = None
     /\ r = Ok tt (advance_smtp (S (length ds)) w)
              (failed_passes email count ds ++ delivered_pass email))
  \/ (exists ds,
        length ds = fuel
        /\ smtp_fails E (smtp_n w) ds
        /\ r = OutOfFuel (failed_passes email count ds)).

(** What [handle_error] does up to the retry loop when the mail to the IT
    team is not delivered either. *)
Definition it_failed (self : Event.t) (E : Env) (error : exn)
    (error_message d : string) : list action :=
  [ ALog ERROR "%s." [LStr error_message];
    ALog ERROR "DETAILS: %s" [LExn error];
    ASendmail (it_message self E error_message) (Some d);
    ALog CRITICAL "ERROR: %s." [LStr (error_message +:+ " AND email IT team")];
    ALog CRITICAL
      "Attempting to email IT team every 5 minutes until successful." [];
    ALog CRITICAL "DETAILS: %s" [LExn (Exception d)] ].

(** The message the retry loop is given. *)
Definition it_retry_email (self : Event.t) (E : Env) (error_message : string)
  : Email.t :=
  Email.mk (Some (it_email E)) (error_message +:+ " AND email IT team")
           (Event.it_body self E error_message).

(** What [handle_error] does when the mail to the IT team is delivered. *)
Definition it_delivered (self : Event.t) (E : Env) (error : exn)
    (error_message : string) : list action :=
  [ ALog ERROR "%s." [LStr error_message];
    ALog ERROR "DETAILS: %s" [LExn error];
    ASendmail (it_message self E error_message) None;
    ALog INFO "Email sent to %s." [LStr (it_email E)] ].

(** The pin, the clock and the shared input status are where they were. *)
Definition keeps_board (w w' : World) : Prop :=
  input_status w' = input_status w
  /\ gpio_n w' = gpio_n w
  /\ clock_n w' = clock_n w.

(** The run [r] from [w] keeps the board and emits only actions that
    satisfy [P]. *)
Definition sat_result {A} (P : action -> Prop) (w : World) (r : result A)
  : Prop :=
  match r with
  | Ok _ w' t | Raise _ w' t => keeps_board w w' /\ Forall P t
  | OutOfFuel t => Forall P t
  end.

(** [m] keeps the board and emits only actions that satisfy [P]. *)
Definition sat {A} (E : Env) (P : action -> Prop) (m : M A) : Prop :=
  forall w, sat_result P w (m E w).

(** What [notify_recipients] does when the mail to the owner of the
    freezer is delivered, and what it does up to [handle_error] when it
    is not. *)
Definition primary_delivered (self : Event.t) (E : Env)
    (location recipient : option string) : list action :=
  [ ALog INFO "%s." [LStr "Parsed CSV file for freezer data"];
    ASendmail (primary_message self E location recipient) None;
    ALog INFO "Email sent to %s." [LStr (pystr recipient)] ].

Definition primary_failed (self : Event.t) (E : Env)
    (location recipient : option string) (d : string) : list action :=
  [ ALog INFO "%s." [LStr "Parsed CSV file for freezer data"];
    ASendmail (primary_message self E location recipient) (Some d) ].

(** The error message [notify_recipients] gives to [handle_error]. *)
Definition failure_to_email (recipient : option string) : string :=
  "!!! -80 ALERT !!! Failure to email " +:+ pystr recipient.

(** The event [Board.alert] creates in the world [w]. *)
Definition event_of (E : Env) (w : World) : Event.t :=
  Event.init (clock_now E (clock_n w)) (input_status w).

(** [a] is not the record of the start of a cycle. *)
Definition not_cycle_start (a : action) : Prop := is_cycle_start a = false.

(** One pass of the loop with the pin HIGH: the sleep, the log record
    with the counter, and what [event.alert] does. *)
Definition cycle (count : Z) (t_alert : list action) : list action :=
  [ ASleep Board.sub_interval;
    ALog INFO "Alarm Cycle #%s: Initiating event alert." [LStr (pretty count)] ]
  ++ t_alert.

(** The passes after [count] of them, one for each run of [event.alert]. *)
Fixpoint cycles (count : Z) (ts : list (list action)) : list action :=
  match ts with
  | [] => []
  | t :: ts' => cycle (count + 1) t ++ cycles (count + 1) ts'
  end.

(** The pass that reads the pin LOW. *)
Definition recovery_noted : list action :=
  [ ASleep Board.sub_interval; ALog INFO "Alarm state recovery." [] ].

(** The record [check_alert] logs last, with the input status [s]. *)
Definition cycle_ended (s : option Z) : list action :=
  [ ALog INFO "End check alarm cycle. Current pin input status is %s."
      [LStr (Board.status_name s)] ].

(** [t] is what some run of [event.alert] that returns does. *)
Definition alert_run (E : Env) (fuel : nat) (ev : Event.t) (t : list action)
  : Prop :=
  exists w1 w2, Event.alert fuel ev (ip E) E w1 = Ok tt w2 t.

(** The clock read in [w] and from then on advances by the re-alert step
    from one reading to the next. *)
Definition ideal_clock (E : Env) (w : World) : Prop :=
  forall k : nat,
    clock_now E (k + clock_n w)
    = clock_now E (clock_n w) + Z.of_nat k * Board.sub_interval.

(** The next [n] reads of the pin are HIGH. *)
Definition reads_high (E : Env) (w : World) (n : nat) : Prop :=
  forall k : nat, (k < n)%nat -> gpio_input E (k + gpio_n w) = 1.

(** Every call of [event.alert] returns. *)
Definition alert_returns (E : Env) (fuel : nat) (ev : Event.t) : Prop :=
  forall w1, exists w2 t, Event.alert fuel ev (ip E) E w1 = Ok tt w2 t.

(** The row has [ip] in its [IP] column. *)
Definition matches_ip (ip : string) (row : FreezerData.dict) : bool :=
  bool_decide (FreezerData.fields row !! "IP" = Some (Some ip)).

(** What [monitor] does before its loop when the pin reads [v]. *)
Definition startup (E : Env) (v : Z) : list action :=
  [ ALog INFO "Beginning monitor of input for pin %s." [LInt (pin E)];
    ALog INFO "Initital status: %s" [LStr (Board.status_name (Some v))] ]
  ++ (if v =? 1 then event_initiated (Some v) else []).

(** The reads after the debounce all give the stored level: the pin is
    read once a pass, from [k] on, and stays at [s]. *)
Definition reads_stay (E : Env) (w : World) (n : nat) : Prop :=
  forall k : nat, (k < n)%nat -> input_status w = Some (gpio_input E (k + gpio_n w)).

(* ================================================================== *)
(** * tests/ErrorAfterCall.py *)
(* ================================================================== *)

Module ErrorAfterCall.

Record t := mk {
  limit : Z;
  calls : Z
}.

(** [__init__(limit)]. *)
Definition init (limit : Z) : t := mk limit 0.

(** A call returns, or raises [CallableExhausted]; the object has counted
    the call in both cases. *)
Inductive outcome :=
| Returned (self : t)
| Exhausted (self : t).

(** [__call__]. *)
Definition call (self : t) : outcome :=
  let self := mk (limit self) (calls self + 1) in
  if limit self <? calls self then Exhausted self else Returned self.

(** [n] calls in a row; the exception of a call ends the row. *)
Fixpoint call_n (n : nat) (self : t) : outcome :=
  match n with
  | O => Returned self
  | S n' =>
      match call self with
      | Returned self' => call_n n' self'
      | Exhausted self' => Exhausted self'
      end
  end.

End ErrorAfterCall.

(* ================================================================== *)
(** * Further notions *)
(* ================================================================== *)

(** No attempt of [ss] was delivered. *)
Definition all_failed (ss : list (MIMEText * option string)) : Prop :=
  Forall (fun s => s.2 <> None) ss.

(** The run [r] has delivered one mail if it has returned, after
    attempts that all failed; none if it has not returned; and if it has
    raised, it is with an exception in [raises] and before any attempt. *)
Definition one_delivery {A} (raises : exn -> Prop) (r : result A) : Prop :=
  match r with
  | Ok _ _ t => exists fs m, sends t = fs ++ [(m, None)] /\ all_failed fs
  | Raise e _ t => sends t = [] /\ raises e
  | OutOfFuel t => all_failed (sends t)
  end.

(** The row has no column [Location], or no column [Email]. *)
Definition missing_column (e : exn) : Prop :=
  e = KeyError "Location" \/ e = KeyError "Email".

(** The number of waits for an edge. *)
Fixpoint edge_waits (t : list action) : nat :=
  match t with
  | [] => O
  | AWaitEdge :: t' => S (edge_waits t')
  | _ :: t' => edge_waits t'
  end.

(** The world with the board of [b] (the input status and the reads of
    the pin) and the rest of [w] (the mail server, the clock, the file). *)
Definition graft (b w : World) : World :=
  {| input_status := input_status b; gpio_n := gpio_n b;
     smtp_n := smtp_n w; clock_n := clock_n w; csv_n := csv_n w |}.

(** The run [r] with its last world changed by [f]. *)
Definition map_world {A} (f : World -> World) (r : result A) : result A :=
  match r with
  | Ok a w t => Ok a (f w) t
  | Raise e w t => Raise e (f w) t
  | OutOfFuel t => OutOfFuel t
  end.

(** [m] neither reads nor writes the board: on another board it does the
    same and leaves that board as it is. *)
Definition off_board {A} (m : M A) : Prop :=
  forall E b w, m E (graft b w) = map_world (graft b) (m E w).

(** [m] reads and writes the board only. *)
Definition on_board {A} (m : M A) : Prop :=
  forall E w x, m E (graft w x) = map_world (fun w' => graft w' x) (m E w).

(** What a run of the notification leaves behind: the board as it was,
    the file not opened again, one mail handed to the server for each
    attempt in the trace, no thread started and no edge waited for. *)
Definition mail_footprint (w w' : World) (t : list action) : Prop :=
  keeps_board w w'
  /\ csv_n w' = csv_n w
  /\ smtp_n w' = (length (sends t) + smtp_n w)%nat
  /\ threads_started t = O
  /\ edge_waits t = O.

(** [m] leaves [Q] behind whenever it returns or raises. *)
Definition leaves {A} (E : Env) (Q : World -> World -> list action -> Prop)
    (m : M A) : Prop :=
  forall w,
    match m E w with
    | Ok _ w' t | Raise _ w' t => Q w w' t
    | OutOfFuel _ => True
    end.

(** The world [w] with the CSV file opened [k] more times. *)
Definition at_file (k : nat) (w : World) : World :=
  {| input_status := input_status w; gpio_n := gpio_n w; smtp_n := smtp_n w;
     clock_n := clock_n w; csv_n := (k + csv_n w)%nat |}.

(** The next [n] notifications from [w] reach the owner of the freezer
    at once: each lookup finds a row with [location] and [recipient] in
    its columns [Location] and [Email], and the server takes each mail. *)
Definition owner_reached (E : Env) (w : World) (n : nat)
    (location recipient : option string) : Prop :=
  forall k : nat,
    (k < n)%nat ->
    (exists data,
       lookup_data (ip E) E (at_file k w) = Some data
       /\ FreezerData.fields data !! "Location" = Some location
       /\ FreezerData.fields data !! "Email" = Some recipient)
    /\ smtp_sendmail E (k + smtp_n w) = None.

(** The mail server refuses every other mail, from the first on. *)
Definition every_other (k : nat) : option string :=
  if Nat.even k then Some "Connection refused" else None.

(** The pin stays HIGH; each mail to the owner is refused and each mail
    to the IT team is taken. *)
Definition owner_refused : Env :=
  scenario (fun _ => 1) every_other (fun _ => Some freezer_test_csv).

(** The pin stays HIGH, there is no CSV file, and the first mail is
    refused. *)
Definition no_csv_down : Env :=
  scenario (fun _ => 1) (down_for 1) (fun _ => None).

(** The readings of the clock that [check_alert] makes from [w] on stay
    inside the window for the first [k] and the next is outside. *)
Definition window_closes_at (E : Env) (w : World) (k : nat) : Prop :=
  (forall i : nat, (i < k)%nat ->
     clock_now E (i + clock_n w)
     < clock_now E (clock_n w) + Board.total_duration)
  /\ clock_now E (clock_n w) + Board.total_duration
     <= clock_now E (k + clock_n w).

(** A clock under which [event.alert] takes four seconds. *)
Definition slow_mail : Env :=
  {| pin := 11;
     ip := "92.168.1.100";
     it_email := "it@test.edu";
     strftime := fun _ fmt => fmt;
     gpio_input := fun _ => 1;
     smtp_sendmail := down_for 0;
     clock_now := fun n => Z.of_nat n * sec 14;
     csv_open := fun _ => inr (readable freezer_test_csv) |}.

(** A file without the column [Location]. *)
Definition no_location_csv : list (list string) :=
  [ ["Email"; "IP"]; ["owner@test.edu"; "92.168.1.100"] ].

Definition no_location : Env :=
  scenario (fun _ => 1) (down_for 0) (fun _ => Some no_location_csv).

(** A file without the column [IP]. *)
Definition no_ip_csv : list (list string) :=
  [ ["Email"; "Location"]; ["owner@test.edu"; "LGRT 3"] ].

Definition no_ip : Env :=
  scenario (fun _ => 1) (down_for 0) (fun _ => Some no_ip_csv).

(* ================================================================== *)
(** * The laws of the monad *)
(* ================================================================== *)

Lemma after_nil {A} (r : result A) : after [] r = r.
Proof. by destruct r. Qed.

Lemma after_after {A} (t1 t2 : list action) (r : result A) :
  after t1 (after t2 r) = after (t1 ++ t2) r.
Proof. destruct r; simpl; by rewrite app_assoc. Qed.

Lemma trace_of_after {A} (t : list action) (r : result A) :
  trace_of (after t r) = t ++ trace_of r.
Proof. by destruct r. Qed.

Lemma bind_ok {A B} (m : M A) (k : A -> M B) E w a w1 t1 :
  m E w = Ok a w1 t1 -> bind m k E w = after t1 (k a E w1).
Proof. unfold bind. by intros ->. Qed.

Lemma advance_smtp_advance (a b : nat) (w : World) :
  advance_smtp a (advance_smtp b w) = advance_smtp (a + b) w.
Proof. unfold advance_smtp; simpl. f_equal. lia. Qed.

Lemma sends_app (t1 t2 : list action) : sends (t1 ++ t2) = sends t1 ++ sends t2.
Proof.
  induction t1 as [|a t1 IH]; [done|].
  destruct a; simpl; by rewrite ?IH.
Qed.

Lemma failure_counts_app (t1 t2 : list action) :
  failure_counts (t1 ++ t2) = failure_counts t1 ++ failure_counts t2.
Proof.
  induction t1 as [|a t1 IH]; [done|].
  change ((a :: t1) ++ t2) with (a :: (t1 ++ t2)).
  assert (Hcons : forall t, failure_counts (a :: t) = failure_counts [a] ++ failure_counts t).
  { intros t. destruct a as [lvl fmt args| | | |]; try done.
    destruct lvl; try done.
    simpl. repeat (case_match; try done). }
  by rewrite Hcons, (Hcons t1), IH, app_assoc.
Qed.

(* ================================================================== *)
(** * The retry loop of [Event.handle_email_error] *)
(* ================================================================== *)

Lemma handle_email_error_pass_fails email count E w d :
  smtp_sendmail E (smtp_n w) = Some d ->
  Event.handle_email_error_pass email count E w
  = Ok (false, count + 1) (tick_smtp w) (failed_pass email (count + 1) d).
Proof.
  intros H. unfold Event.handle_email_error_pass, bind, try_except, sleep, emit,
    Email.send_email, log, ret; simpl. by rewrite H.
Qed.

Lemma handle_email_error_pass_delivers email count E w :
  smtp_sendmail E (smtp_n w) = None ->
  Event.handle_email_error_pass email count E w
  = Ok (true, count) (tick_smtp w) (delivered_pass email).
Proof.
  intros H. unfold Event.handle_email_error_pass, bind, try_except, sleep, emit,
    Email.send_email, log, ret; simpl. by rewrite H.
Qed.

(** While the server fails, the loop goes on with the counter one up. *)
Lemma handle_email_error_loop_fails email E ds :
  forall fuel count w,
    smtp_fails E (smtp_n w) ds ->
    Event.handle_email_error_loop (length ds + fuel) email count E w
    = after (failed_passes email count ds)
        (Event.handle_email_error_loop fuel email
           (count + Z.of_nat (length ds)) E (advance_smtp (length ds) w)).
Proof.
  induction ds as [|d ds IH]; intros fuel count w Hf.
  - simpl. rewrite after_nil. f_equal; [lia|]. by destruct w.
  - destruct Hf as [Hd Hf].
    change (length (d :: ds) + fuel)%nat with (S (length ds + fuel)).
    cbn [Event.handle_email_error_loop].
    rewrite (bind_ok _ _ _ _ _ _ _ (handle_email_error_pass_fails email count E w d Hd)).
    cbn [fst snd].
    rewrite IH.
    + rewrite after_after. cbn [failed_passes]. f_equal.
      replace (count + 1 + Z.of_nat (length ds))
        with (count + Z.of_nat (length (d :: ds))) by (cbn [length]; lia).
      replace (advance_smtp (length ds) (tick_smtp w))
        with (advance_smtp (length (d :: ds)) w); [done|].
      unfold tick_smtp. rewrite advance_smtp_advance.
      f_equal. cbn [length]. lia.
    + exact Hf.
Qed.

Lemma sends_failed_passes email count ds :
  sends (failed_passes email count ds)
  = map (fun d => (Email.message email, Some d)) ds.
Proof.
  revert count. induction ds as [|d ds IH]; intros count; [done|].
  simpl. by rewrite IH.
Qed.

Lemma failure_counts_failed_passes email count ds :
  failure_counts (failed_passes email count ds)
  = map (fun k => count + Z.of_nat k) (seq 1 (length ds)).
Proof.
  revert count. induction ds as [|d ds IH]; intros count; [done|].
  cbn [failed_passes length seq map]. rewrite failure_counts_app, IH.
  change (failure_counts (failed_pass email (count + 1) d)) with [count + 1].
  cbn [app]. f_equal; try lia.
  rewrite <- (seq_shift (length ds) 1), map_map. apply map_ext. intros k. lia.
Qed.

Lemma handle_error_it_fails fuel self error error_message E w d :
  smtp_sendmail E (smtp_n w) = Some d ->
  Event.handle_error fuel self error error_message E w
  = after (it_failed self E error error_message d)
      (Event.handle_email_error fuel (it_retry_email self E error_message)
         E (tick_smtp w)).
Proof.
  intros H. unfold Event.handle_error, bind, try_except, ask, log, emit,
    Email.send_email; simpl. rewrite H; simpl.
  by destruct (Event.handle_email_error _ _ _ _).
Qed.

Lemma handle_error_it_delivered fuel self error error_message E w :
  smtp_sendmail E (smtp_n w) = None ->
  Event.handle_error fuel self error error_message E w
  = Ok tt (tick_smtp w) (it_delivered self E error error_message).
Proof.
  intros H. unfold Event.handle_error, bind, try_except, ask, log, emit,
    Email.send_email; simpl. by rewrite H.
Qed.

(** The loop ends in no other way: it returns only after a delivery,
    and it never raises. *)
Lemma handle_email_error_loop_outcome email E :
  forall fuel count w,
    retry_outcome E w email count fuel
      (Event.handle_email_error_loop fuel email count E w).
Proof.
  induction fuel as [|fuel IH]; intros count w.
  - right. by exists [].
  - cbn [Event.handle_email_error_loop].
    destruct (smtp_sendmail E (smtp_n w)) as [d|] eqn:Hs.
    + rewrite (bind_ok _ _ _ _ _ _ _
        (handle_email_error_pass_fails email count E w d Hs)).
      cbn [fst snd].
      destruct (IH (count + 1) (tick_smtp w))
        as [(ds & Hlen & Hf & Hok & ->)|(ds & Hlen & Hf & ->)].
      * left. exists (d :: ds). split; [simpl; lia|].
        split; [by split|]. split.
        { simpl in Hok |- *. rewrite <- Hok. f_equal. lia. }
        simpl. unfold tick_smtp. rewrite advance_smtp_advance.
        do 2 f_equal. lia.
      * right. exists (d :: ds). split; [simpl; lia|]. by split.
    + rewrite (bind_ok _ _ _ _ _ _ _
        (handle_email_error_pass_delivers email count E w Hs)).
      cbn [fst]. left. exists []. split; [simpl; lia|].
      split; [done|]. split; [done|].
      unfold ret, after. by rewrite app_nil_r.
Qed.

(** C3. In the retry loop of [Event.handle_email_error] every attempt
    hands the server the same message (recipient, subject and body); the
    subject was set to the error message with [" AND email IT team"]
    appended by [handle_error], before the loop; the loop returns at the
    first delivery, not before it, and ends in no other way; and the
    [n]-th failure logs the counter [n]. *)
Theorem handle_email_error_retries_same_message
    (E : Env) (w : World) (email : Email.t) (ds : list string) (fuel : nat) :
  smtp_fails E (smtp_n w) ds ->
  (smtp_sendmail E (length ds + smtp_n w) = None ->
   Event.handle_email_error (length ds + S fuel) email E w
   = Ok tt (advance_smtp (S (length ds)) w)
        (failed_passes email 0 ds ++ delivered_pass email))
  /\ Event.handle_email_error (length ds) email E w
     = OutOfFuel (failed_passes email 0 ds)
  /\ (forall fuel',
       retry_outcome E w email 0 fuel'
         (Event.handle_email_error fuel' email E w))
  /\ sends (failed_passes email 0 ds ++ delivered_pass email)
     = map (fun d => (Email.message email, Some d)) ds
       ++ [(Email.message email, None)]
  /\ failure_counts (failed_passes email 0 ds ++ delivered_pass email)
     = map Z.of_nat (seq 1 (length ds))
  /\ forall self error error_message d,
       smtp_sendmail E (smtp_n w) = Some d ->
       Event.handle_error fuel self error error_message E w
       = after (it_failed self E error error_message d)
           (Event.handle_email_error fuel
              (Email.mk (Some (it_email E))
                        (error_message +:+ " AND email IT team")
                        (Event.it_body self E error_message))
              E (tick_smtp w)).
Proof.
  intros Hf. repeat split.
  - intros Hok. unfold Event.handle_email_error.
    rewrite handle_email_error_loop_fails by done.
    cbn [Event.handle_email_error_loop].
    rewrite (bind_ok _ _ _ _ _ _ _
      (handle_email_error_pass_delivers email _ E
         (advance_smtp (length ds) w) Hok)).
    cbn [fst]. unfold ret, after. rewrite app_nil_r.
    unfold tick_smtp. by rewrite advance_smtp_advance.
  - unfold Event.handle_email_error.
    rewrite <- (Nat.add_0_r (length ds)) at 1.
    rewrite handle_email_error_loop_fails by done.
    simpl. by rewrite app_nil_r.
  - intros fuel'. apply handle_email_error_loop_outcome.
  - by rewrite sends_app, sends_failed_passes.
  - rewrite failure_counts_app, failure_counts_failed_passes.
    simpl. rewrite app_nil_r. apply map_ext. intros k. lia.
  - intros self error error_message d Hd. by apply handle_error_it_fails.
Qed.

(* ================================================================== *)
(** * What a computation leaves alone, and what it may emit *)
(* ================================================================== *)

Lemma keeps_board_refl w : keeps_board w w.
Proof. by unfold keeps_board. Qed.

Lemma keeps_board_trans w1 w2 w3 :
  keeps_board w1 w2 -> keeps_board w2 w3 -> keeps_board w1 w3.
Proof. unfold keeps_board. intuition congruence. Qed.

Section Sat.
Context (E : Env) (P : action -> Prop).

Lemma sat_result_after {A} w w1 t1 (r : result A) :
  keeps_board w w1 -> Forall P t1 -> sat_result P w1 r ->
  sat_result P w (after t1 r).
Proof.
  intros Hk Ht. destruct r; simpl;
    rewrite Forall_app; intuition eauto using keeps_board_trans.
Qed.

Lemma sat_ret {A} (a : A) : sat E P (ret a).
Proof. intros w. simpl. auto using keeps_board_refl. Qed.

Lemma sat_raise {A} e : sat E P (@raise A e).
Proof. intros w. simpl. auto using keeps_board_refl. Qed.

Lemma sat_out_of_fuel {A} : sat E P (@out_of_fuel A).
Proof. intros w. simpl. auto. Qed.

Lemma sat_ask {A} (f : Env -> A) : sat E P (ask f).
Proof. intros w. simpl. auto using keeps_board_refl. Qed.

Lemma sat_emit a : P a -> sat E P (emit a).
Proof. intros Ha w. simpl. auto using keeps_board_refl. Qed.

Lemma sat_log lvl fmt args : P (ALog lvl fmt args) -> sat E P (log lvl fmt args).
Proof. apply sat_emit. Qed.

Lemma sat_sleep us : P (ASleep us) -> sat E P (sleep us).
Proof. apply sat_emit. Qed.

Lemma sat_bind {A B} (m : M A) (k : A -> M B) :
  sat E P m -> (forall a, sat E P (k a)) -> sat E P (bind m k).
Proof.
  intros Hm Hk w. unfold bind. specialize (Hm w).
  destruct (m E w) as [a w1 t1|e w1 t1|t1]; simpl in *; try done.
  destruct Hm. apply (sat_result_after w w1); auto. apply Hk.
Qed.

Lemma sat_try_except {A} (m : M A) (h : exn -> M A) :
  sat E P m -> (forall e, sat E P (h e)) -> sat E P (try_except m h).
Proof.
  intros Hm Hh w. unfold try_except. specialize (Hm w).
  destruct (m E w) as [a w1 t1|e w1 t1|t1]; simpl in *; try done.
  destruct Hm. apply (sat_result_after w w1); auto. apply Hh.
Qed.

Lemma sat_send_email email :
  (forall r, P (ASendmail (Email.message email) r)) ->
  sat E P (Email.send_email email).
Proof.
  intros HP w. unfold Email.send_email.
  destruct (smtp_sendmail E (smtp_n w)); simpl;
    (split; [by unfold keeps_board|auto]).
Qed.

Lemma sat_parse_csv ip self : sat E P (FreezerData.parse_csv ip self).
Proof.
  intros w. unfold FreezerData.parse_csv, FreezerData.open_csv, bind.
  destruct (csv_open E (csv_n w)); simpl; [by unfold keeps_board|].
  destruct (FreezerData.parse_rows _ _ _ _); simpl;
    (split; [by unfold keeps_board|auto]).
Qed.

End Sat.

Create HintDb sat.
#[local] Hint Resolve sat_ret sat_raise sat_out_of_fuel sat_ask sat_parse_csv
  : sat.

(** Breaks a goal [sat E P m] along the structure of [m]; what is left
    are the conditions [P a] on the actions emitted. *)
Ltac sat_go :=
  repeat first
    [ progress intros
    | solve [auto with sat]
    | apply sat_bind
    | apply sat_try_except
    | apply sat_log
    | apply sat_sleep
    | apply sat_send_email
    | match goal with
      | |- sat _ _ (if ?b then _ else _) => destruct b
      | |- sat _ _ (match ?x with _ => _ end) => destruct x
      end ].

(** Every pass of the retry loop sends the message it was given. *)
Lemma sat_handle_email_error E (P : action -> Prop) fuel email :
  (forall lvl fmt args,
     is_cycle_start (ALog lvl fmt args) = false -> P (ALog lvl fmt args)) ->
  (forall us, P (ASleep us)) ->
  (forall r, P (ASendmail (Email.message email) r)) ->
  sat E P (Event.handle_email_error fuel email).
Proof.
  intros Hlog Hsleep Hsend. unfold Event.handle_email_error.
  generalize 0. induction fuel as [|fuel IH]; intros count.
  - apply sat_out_of_fuel.
  - cbn [Event.handle_email_error_loop]. unfold Event.handle_email_error_pass.
    sat_go; first [by apply Hlog | auto].
Qed.

Lemma Forall_sends (Q : MIMEText * option string -> Prop) (t : list action) :
  Forall (fun a => forall m r, a = ASendmail m r -> Q (m, r)) t ->
  Forall Q (sends t).
Proof.
  induction 1 as [|a t Ha _ IH]; [constructor|].
  destruct a; simpl; auto.
Qed.

Lemma cycle_entered_app t1 t2 :
  cycle_entered (t1 ++ t2) = cycle_entered t1 || cycle_entered t2.
Proof. apply existsb_app. Qed.

Lemma cycle_entered_false t :
  Forall (fun a => is_cycle_start a = false) t -> cycle_entered t = false.
Proof.
  induction 1 as [|a t Ha _ IH]; [done|].
  simpl. by rewrite Ha, IH.
Qed.

(* ================================================================== *)
(** * [Event.alert] *)
(* ================================================================== *)

Lemma bind_ret_tt (m : M unit) E w : bind m (fun _ => ret tt) E w = m E w.
Proof.
  unfold bind. destruct (m E w) as [[] w1 t1| |]; simpl; try done.
  by rewrite app_nil_r.
Qed.

Lemma parse_csv_result ip self E w :
  (exists fd, FreezerData.parse_csv ip self E w = Ok fd (tick_csv w) [])
  \/ (exists e, FreezerData.parse_csv ip self E w = Raise e (tick_csv w) []).
Proof.
  unfold FreezerData.parse_csv, FreezerData.open_csv, bind.
  destruct (csv_open E (csv_n w)); simpl; [eauto|].
  destruct (FreezerData.parse_rows _ _ _ _); simpl; eauto.
Qed.

(** A failed lookup: [alert] is [handle_error] on the error of the lookup
    and [notify_recipients] is not called. *)
Lemma alert_lookup_fails fuel self ip E w error :
  lookup_error ip E w = Some error ->
  Event.alert fuel self ip E w
  = Event.handle_error fuel self error "Failed to parse CSV file" E
      (tick_csv w).
Proof.
  unfold lookup_error. intros H.
  unfold Event.alert, Event.lookup, bind, try_except.
  destruct (parse_csv_result ip FreezerData.init E w) as [[fd Hfd]|[e He]].
  - rewrite Hfd in *.
    destruct (FreezerData.is_empty (FreezerData.get_data fd)); [|done].
    injection H as <-. unfold raise. simpl.
    destruct (Event.handle_error _ _ _ _ _ _) as [[] w1 t1| |]; simpl;
      by rewrite ?app_nil_r.
  - rewrite He in *. injection H as <-. simpl.
    destruct (Event.handle_error _ _ _ _ _ _) as [[] w1 t1| |]; simpl;
      by rewrite ?app_nil_r.
Qed.

(** A lookup that succeeds: [alert] is [notify_recipients] on the row. *)
Lemma alert_lookup_succeeds fuel self ip E w data :
  lookup_data ip E w = Some data ->
  Event.alert fuel self ip E w
  = Event.notify_recipients fuel self (FreezerData.mk data)
      "Parsed CSV file for freezer data" E (tick_csv w).
Proof.
  unfold lookup_data. intros H.
  unfold Event.alert, Event.lookup, bind, try_except.
  destruct (parse_csv_result ip FreezerData.init E w) as [[fd Hfd]|[e He]].
  - rewrite Hfd in *.
    destruct (FreezerData.is_empty (FreezerData.get_data fd)); [done|].
    injection H as <-. destruct fd as [d]. unfold ret. simpl.
    destruct (Event.notify_recipients _ _ _ _ _ _); simpl; done.
  - by rewrite He in H.
Qed.

(** The messages [handle_error] hands to the server are the one to the IT
    team and the same with the subject of the retry loop. *)
Lemma sat_handle_error E (P : action -> Prop) fuel self error error_message :
  (forall lvl fmt args,
     is_cycle_start (ALog lvl fmt args) = false -> P (ALog lvl fmt args)) ->
  (forall us, P (ASleep us)) ->
  (forall r, P (ASendmail (it_message self E error_message) r)) ->
  (forall r, P (ASendmail
                  (Email.message (it_retry_email self E error_message)) r)) ->
  sat E P (Event.handle_error fuel self error error_message).
Proof.
  intros Hlog Hsleep Hit Hretry. unfold Event.handle_error.
  apply sat_bind; [sat_go; by apply Hlog|intros _].
  apply sat_bind; [sat_go; by apply Hlog|intros _].
  intros w. unfold bind at 1. unfold ask at 1. simpl. rewrite after_nil.
  unfold bind at 1. unfold ask at 1. simpl. rewrite after_nil.
  revert w. change (sat E P
    (try_except
       (Email.send_email
          (Email.mk (Some (it_email E)) (Event.it_subject error_message)
             (Event.it_body self E error_message)) ;;;
        log INFO "Email sent to %s." [LStr (it_email E)])
       (fun error0 =>
          log CRITICAL "ERROR: %s."
            [LStr (error_message +:+ " AND email IT team")] ;;;
          log CRITICAL
            "Attempting to email IT team every 5 minutes until successful."
            [] ;;;
          log CRITICAL "DETAILS: %s" [LExn error0] ;;;
          Event.handle_email_error fuel
            (it_retry_email self E error_message)))).
  sat_go; first [by apply Hlog | auto].
  by apply sat_handle_email_error.
Qed.

Lemma sat_event_alert E (P : action -> Prop) fuel self ip :
  (forall lvl fmt args,
     is_cycle_start (ALog lvl fmt args) = false -> P (ALog lvl fmt args)) ->
  (forall us, P (ASleep us)) ->
  (forall m r, P (ASendmail m r)) ->
  sat E P (Event.alert fuel self ip).
Proof.
  intros Hlog Hsleep Hsend.
  assert (Herr : forall error msg, sat E P (Event.handle_error fuel self error msg))
    by (intros; apply sat_handle_error; auto).
  unfold Event.alert, Event.lookup, Event.notify_recipients, Event.getitem.
  sat_go; first [by apply Hlog | auto].
Qed.

(** ** [notify_recipients] *)

Lemma notify_recipients_delivered fuel self data E w location recipient :
  FreezerData.fields data !! "Location" = Some location ->
  FreezerData.fields data !! "Email" = Some recipient ->
  smtp_sendmail E (smtp_n w) = None ->
  Event.notify_recipients fuel self (FreezerData.mk data)
    "Parsed CSV file for freezer data" E w
  = Ok tt (tick_smtp w) (primary_delivered self E location recipient).
Proof.
  intros Hl Hr Hs.
  unfold Event.notify_recipients, Event.getitem, bind, try_except, ask, log,
    emit, Email.send_email; simpl.
  rewrite Hl; simpl. rewrite Hr; simpl. by rewrite Hs.
Qed.

Lemma notify_recipients_failed fuel self data E w location recipient d :
  FreezerData.fields data !! "Location" = Some location ->
  FreezerData.fields data !! "Email" = Some recipient ->
  smtp_sendmail E (smtp_n w) = Some d ->
  Event.notify_recipients fuel self (FreezerData.mk data)
    "Parsed CSV file for freezer data" E w
  = after (primary_failed self E location recipient d)
      (Event.handle_error fuel self (Exception d) (failure_to_email recipient)
         E (tick_smtp w)).
Proof.
  intros Hl Hr Hs.
  unfold Event.notify_recipients, Event.getitem, bind, try_except, ask, log,
    emit, Email.send_email; simpl.
  rewrite Hl; simpl. rewrite Hr; simpl. rewrite Hs; simpl.
  by destruct (Event.handle_error _ _ _ _ _ _).
Qed.

(** The lookup depends on the world only through the state of the file. *)
Lemma lookup_data_same_file ip E w2 w :
  csv_n w2 = csv_n w -> lookup_data ip E w2 = lookup_data ip E w.
Proof.
  intros Hn.
  unfold lookup_data, FreezerData.parse_csv, FreezerData.open_csv, bind.
  rewrite Hn. destruct (csv_open E (csv_n w)); simpl; [done|].
  by destruct (FreezerData.parse_rows _ _ _ _).
Qed.

(** One run of [Event.alert] in which the mail to the owner fails and
    the mail to the IT team is delivered. *)
Lemma alert_primary_fails_it_delivers fuel self ip E w data location
    recipient d :
  lookup_data ip E w = Some data ->
  FreezerData.fields data !! "Location" = Some location ->
  FreezerData.fields data !! "Email" = Some recipient ->
  smtp_sendmail E (smtp_n w) = Some d ->
  smtp_sendmail E (S (smtp_n w)) = None ->
  Event.alert fuel self ip E w
  = Ok tt (advance_smtp 2 (tick_csv w))
      (primary_failed self E location recipient d
       ++ it_delivered self E (Exception d) (failure_to_email recipient)).
Proof.
  intros Hdata Hl Hr Hs1 Hs2.
  rewrite (alert_lookup_succeeds _ _ _ _ _ _ Hdata).
  rewrite (notify_recipients_failed _ _ _ _ _ _ _ d Hl Hr) by done.
  by rewrite handle_error_it_delivered.
Qed.

(* ================================================================== *)
(** * [Board.alert] *)
(* ================================================================== *)

Lemma alert_notify_run fuel E w :
  Board.alert_notify fuel E w
  = match Event.alert fuel (event_of E w) (ip E) E (tick_clock w) with
    | Ok _ w1 t1 => Ok (event_of E w) w1 t1
    | Raise e w1 t1 => Raise e w1 t1
    | OutOfFuel t1 => OutOfFuel t1
    end.
Proof.
  unfold Board.alert_notify, bind, datetime_now, Board.get_input_status, ask, ret;
    simpl.
  destruct (Event.alert _ _ _ _ _) as [[] w1 t1| |]; simpl;
    by rewrite ?app_nil_r.
Qed.

(** [event.alert] does not touch the input status and does not log the
    start of a cycle. *)
Lemma alert_notify_quiet fuel E w :
  match Board.alert_notify fuel E w with
  | Ok ev w1 t1 =>
      ev = event_of E w /\ input_status w1 = input_status w
      /\ cycle_entered t1 = false
  | Raise _ _ t1 | OutOfFuel t1 => cycle_entered t1 = false
  end.
Proof.
  rewrite alert_notify_run.
  pose proof (sat_event_alert E not_cycle_start fuel (event_of E w) (ip E))
    as Hsat.
  specialize (Hsat (fun _ _ _ H => H) (fun _ => eq_refl) (fun _ _ => eq_refl)
                   (tick_clock w)).
  destruct (Event.alert _ _ _ _ _) as [[] w1 t1| |]; simpl in *.
  - destruct Hsat as [(Hs & _ & _) Ht]. auto using cycle_entered_false.
  - destruct Hsat as [_ Ht]. auto using cycle_entered_false.
  - auto using cycle_entered_false.
Qed.

Lemma py_eq_1 (s : option Z) : py_eq s 1 = true <-> s = Some 1.
Proof.
  destruct s as [z|]; simpl; [|done].
  rewrite Z.eqb_eq. split; congruence.
Qed.

(** The test of [Board.alert] on the input status. *)
Lemma alert_cycle_run fuel ev E w :
  Board.alert_cycle fuel ev E w
  = if py_eq (input_status w) 1
    then after [cycle_start] (Board.check_alert fuel ev E w)
    else Ok tt w [].
Proof.
  unfold Board.alert_cycle, bind, Board.get_input_status; simpl.
  destruct (py_eq (input_status w) 1); [|done].
  unfold log, emit, cycle_start; simpl.
  by destruct (Board.check_alert _ _ _ _).
Qed.

Lemma alert_cycle_entered fuel ev E w :
  cycle_entered (trace_of (Board.alert_cycle fuel ev E w)) = true
  <-> input_status w = Some 1.
Proof.
  rewrite alert_cycle_run, <- py_eq_1.
  destruct (py_eq (input_status w) 1); simpl.
  - by rewrite trace_of_after.
  - done.
Qed.

(* ================================================================== *)
(** * [Board.monitor] *)
(* ================================================================== *)

(** A pass in which the pin reads what is stored. *)
Lemma monitor_pass_same E w :
  input_status w = Some (gpio_input E (gpio_n w)) ->
  Board.monitor_pass E w = Ok tt (tick_gpio w) quiet_pass.
Proof.
  intros H. unfold Board.monitor_pass, bind, log, emit, GPIO_wait_for_edge,
    sleep, Board.get_input_status, GPIO_input; simpl.
  by rewrite bool_decide_eq_true_2.
Qed.

(** A pass in which the pin reads something else: it is read again, and
    what the second read gives is stored. *)
Lemma monitor_pass_differs E w :
  input_status w <> Some (gpio_input E (gpio_n w)) ->
  Board.monitor_pass E w
  = Ok tt
      (with_input_status (Some (gpio_input E (S (gpio_n w))))
         (tick_gpio (tick_gpio w)))
      (quiet_pass ++ event_initiated (Some (gpio_input E (S (gpio_n w))))).
Proof.
  intros H. unfold Board.monitor_pass, bind, log, emit, GPIO_wait_for_edge,
    sleep, Board.get_input_status, GPIO_input, Board.set_input_status,
    Board.initiate_event; simpl.
  by rewrite bool_decide_eq_false_2.
Qed.

Lemma monitor_pass_returns E w :
  exists w' t,
    Board.monitor_pass E w = Ok tt w' t
    /\ Forall not_cycle_start t.
Proof.
  destruct (decide (input_status w = Some (gpio_input E (gpio_n w)))) as [H|H].
  - rewrite monitor_pass_same by done. eexists _, _. split; [done|].
    repeat constructor.
  - rewrite monitor_pass_differs by done. eexists _, _. split; [done|].
    repeat constructor.
Qed.

Lemma monitor_loop_returns n E w :
  exists w' t,
    Board.monitor_loop n E w = Ok tt w' t
    /\ Forall not_cycle_start t.
Proof.
  revert w. induction n as [|n IH]; intros w.
  - eexists _, _. split; [done|constructor].
  - destruct (monitor_pass_returns E w) as (w1 & t1 & H1 & Ht1).
    destruct (IH w1) as (w2 & t2 & H2 & Ht2).
    exists w2, (t1 ++ t2). split.
    + cbn [Board.monitor_loop]. unfold bind. by rewrite H1, H2.
    + by apply Forall_app.
Qed.

(** C10. [Board.alert] decides on the cycle by the input status the board
    object holds when [event.alert] has returned, not by the status of
    the event: whatever the monitor did to the input status in between,
    [check_alert] is called if and only if it is 1 then. So an ALARM
    event starts no cycle when the status has gone to 0, and a RECOVERY
    event starts one when it has gone to 1. *)
Theorem alert_cycle_follows_shared_input_status :
  (forall (E : Env) (w : World) (fuel n : nat) ev w1 t1,
     Board.alert_notify fuel E w = Ok ev w1 t1 ->
     exists w2 t2,
       Board.monitor_loop n E w1 = Ok tt w2 t2
       /\ Board.alert_beside_monitor fuel n E w
          = after (t1 ++ t2) (Board.alert_cycle fuel ev E w2)
       /\ (cycle_entered (trace_of (Board.alert_beside_monitor fuel n E w))
           = true
           <-> input_status w2 = Some 1))
  /\ (exists w1 t1 w2 t2,
        Board.alert_notify 10 pin_low (world (Some 1))
        = Ok (Event.mk 0 "ALARM") w1 t1
        /\ Board.alert_beside_monitor 10 1 pin_low (world (Some 1))
           = Ok tt w2 t2
        /\ input_status w2 = Some 0
        /\ cycle_entered t2 = false)
  /\ (exists w1 t1 w2 t2,
        Board.alert_notify 10 all_well (world (Some 0))
        = Ok (Event.mk 0 "RECOVERY") w1 t1
        /\ Board.alert_beside_monitor 10 1 all_well (world (Some 0))
           = Ok tt w2 t2
        /\ input_status w2 = Some 1
        /\ cycle_entered t2 = true).
Proof.
  split; [|split].
  - intros E w fuel n ev w1 t1 Hnotify.
    destruct (monitor_loop_returns n E w1) as (w2 & t2 & Hloop & Ht2).
    exists w2, t2. split; [done|].
    assert (Hrun : Board.alert_beside_monitor fuel n E w
                   = after (t1 ++ t2) (Board.alert_cycle fuel ev E w2)).
    { unfold Board.alert_beside_monitor, bind. rewrite Hnotify, Hloop.
      by rewrite after_after. }
    split; [done|].
    rewrite Hrun, trace_of_after, !cycle_entered_app.
    pose proof (alert_notify_quiet fuel E w) as Hq. rewrite Hnotify in Hq.
    destruct Hq as (_ & _ & ->).
    rewrite (cycle_entered_false t2) by done. simpl.
    apply alert_cycle_entered.
  - vm_compute. eexists _, _, _, _. repeat split.
  - vm_compute. eexists _, _, _, _. repeat split.
Qed.

(* ================================================================== *)
(** * [Board.check_alert] *)
(* ================================================================== *)

Lemma sends_cycles count ts : sends (cycles count ts) = concat (map sends ts).
Proof.
  revert count. induction ts as [|t ts IH]; intros count; [done|].
  cbn [cycles map concat]. unfold cycle.
  by rewrite !sends_app, IH.
Qed.

Lemma sub_interval_pos : 0 < Board.sub_interval.
Proof. done. Qed.

Lemma alert_keeps_board fuel ev ip E w w' t :
  Event.alert fuel ev ip E w = Ok tt w' t -> keeps_board w w'.
Proof.
  intros H.
  pose proof (sat_event_alert E (fun _ => True) fuel ev ip
                (fun _ _ _ _ => I) (fun _ => I) (fun _ _ => I) w) as Hsat.
  rewrite H in Hsat. by destruct Hsat.
Qed.

(** A pass with the pin HIGH. *)
Lemma check_alert_loop_high fuel afuel ev cur end_time count E w w2 t :
  cur < end_time ->
  gpio_input E (gpio_n w) = 1 ->
  Event.alert afuel ev (ip E) E (tick_gpio w) = Ok tt w2 t ->
  Board.check_alert_loop (S fuel) afuel ev cur end_time count E w
  = after (cycle (count + 1) t)
      (Board.check_alert_loop fuel afuel ev (clock_now E (clock_n w2)) end_time
         (count + 1) E (tick_clock w2)).
Proof.
  intros Hlt Hpin Halert. cbn [Board.check_alert_loop].
  rewrite (proj2 (Z.ltb_lt _ _) Hlt).
  unfold bind at 1. unfold sleep at 1, emit at 1.
  unfold bind at 1. unfold GPIO_input at 1. rewrite Hpin.
  change (1 =? 1) with true. cbv iota.
  unfold bind at 1. unfold log at 1, emit at 1.
  unfold bind at 1. unfold ask at 1.
  unfold bind at 1. rewrite Halert.
  unfold bind at 1. unfold datetime_now at 1.
  rewrite !after_after. simpl. unfold cycle. simpl.
  by rewrite app_nil_r.
Qed.

(** A pass with the pin not HIGH. *)
Lemma check_alert_loop_low fuel afuel ev cur end_time count E w :
  cur < end_time ->
  gpio_input E (gpio_n w) <> 1 ->
  Board.check_alert_loop (S fuel) afuel ev cur end_time count E w
  = Ok tt (tick_gpio w) recovery_noted.
Proof.
  intros Hlt Hpin. cbn [Board.check_alert_loop].
  rewrite (proj2 (Z.ltb_lt _ _) Hlt).
  unfold bind, sleep, emit, GPIO_input, log; simpl.
  by rewrite (proj2 (Z.eqb_neq _ _) Hpin).
Qed.

(** The window is over. *)
Lemma check_alert_loop_over fuel afuel ev cur end_time count E w :
  end_time <= cur ->
  Board.check_alert_loop fuel afuel ev cur end_time count E w = Ok tt w [].
Proof.
  intros Hle. destruct fuel; cbn [Board.check_alert_loop];
    by rewrite (proj2 (Z.ltb_ge _ _) Hle).
Qed.

(** [j] passes with the pin HIGH inside the window. *)
Lemma check_alert_loop_cycles E afuel ev end_time :
  alert_returns E afuel ev ->
  forall (j fuel : nat) (w : World) (cur count : Z),
    cur + Z.of_nat j * Board.sub_interval <= end_time ->
    (forall k : nat,
       clock_now E (k + clock_n w)
       = cur + (Z.of_nat k + 1) * Board.sub_interval) ->
    reads_high E w j ->
    exists w' ts,
      Board.check_alert_loop (j + fuel) afuel ev cur end_time count E w
      = after (cycles count ts)
          (Board.check_alert_loop fuel afuel ev
             (cur + Z.of_nat j * Board.sub_interval) end_time
             (count + Z.of_nat j) E w')
      /\ length ts = j
      /\ Forall (alert_run E afuel ev) ts
      /\ gpio_n w' = (j + gpio_n w)%nat
      /\ clock_n w' = (j + clock_n w)%nat
      /\ input_status w' = input_status w.
Proof.
  intros Hret. pose proof sub_interval_pos as Hpos.
  induction j as [|j IH]; intros fuel w cur count Hroom Hclock Hhigh.
  - exists w, []. rewrite after_nil.
    replace (cur + Z.of_nat 0 * Board.sub_interval) with cur by lia.
    replace (count + Z.of_nat 0) with count by lia.
    repeat split. constructor.
  - destruct (Hret (tick_gpio w)) as (w2 & t & Halert).
    destruct (alert_keeps_board _ _ _ _ _ _ _ Halert) as (Hs & Hg & Hc).
    simpl in Hs, Hg, Hc.
    assert (Hnow : clock_now E (clock_n w2) = cur + Board.sub_interval).
    { rewrite Hc. pose proof (Hclock O) as H0. cbn [Nat.add] in H0.
      rewrite H0. lia. }
    destruct (IH fuel (tick_clock w2) (cur + Board.sub_interval) (count + 1))
      as (w' & ts & Hloop & Hlen & Hruns & Hg' & Hc' & Hs').
    + lia.
    + intros k. simpl. rewrite Hc.
      replace (k + S (clock_n w))%nat with (S k + clock_n w)%nat by lia.
      rewrite Hclock. lia.
    + intros k Hk. simpl. rewrite Hg.
      replace (k + S (gpio_n w))%nat with (S k + gpio_n w)%nat by lia.
      apply Hhigh. lia.
    + exists w', (t :: ts).
      change (S j + fuel)%nat with (S (j + fuel)).
      rewrite (check_alert_loop_high _ _ _ _ _ _ _ _ w2 t);
        [|lia|apply (Hhigh O); lia|done].
      rewrite Hnow, Hloop, after_after. cbn [cycles].
      replace (cur + Board.sub_interval + Z.of_nat j * Board.sub_interval)
        with (cur + Z.of_nat (S j) * Board.sub_interval) by lia.
      replace (count + 1 + Z.of_nat j) with (count + Z.of_nat (S j)) by lia.
      split; [done|]. split; [simpl; lia|].
      split; [constructor; [by exists (tick_gpio w), w2|done]|].
      simpl in Hg', Hc', Hs'. rewrite Hg', Hc', Hs', Hg, Hc, Hs.
      repeat split; lia.
Qed.

(** The calls of [event.alert] in [Board.check_alert], with a clock that
    advances by exactly the step of the cycle from one reading to the
    next and calls that return: if the pin reads HIGH six times,
    [event.alert] is called six times, which is the window (60 s)
    divided by the step (10 s), and the cycle ends; if the pin reads
    HIGH [j] times and then not HIGH, inside the window, it is called
    [j] times and the cycle ends at that read, which is the last: the
    mails of the cycle are those of the [j] calls. *)
Theorem check_alert_realerts
    (E : Env) (w : World) (fuel : nat) (ev : Event.t) :
  ideal_clock E w ->
  alert_returns E fuel ev ->
  (6 <= fuel)%nat ->
  Z.to_nat (Board.total_duration / Board.sub_interval) = 6%nat
  /\ (reads_high E w 6 ->
      exists w' ts,
        Board.check_alert fuel ev E w
        = Ok tt w' (cycles 0 ts ++ cycle_ended (input_status w))
        /\ length ts = Z.to_nat (Board.total_duration / Board.sub_interval)
        /\ Forall (alert_run E fuel ev) ts
        /\ sends (cycles 0 ts ++ cycle_ended (input_status w))
           = concat (map sends ts)
        /\ gpio_n w' = (6 + gpio_n w)%nat)
  /\ (forall j : nat,
        (j < 6)%nat ->
        reads_high E w j ->
        gpio_input E (j + gpio_n w) <> 1 ->
        exists w' ts,
          Board.check_alert fuel ev E w
          = Ok tt w'
              (cycles 0 ts ++ recovery_noted
               ++ cycle_ended (input_status w))
          /\ length ts = j
          /\ Forall (alert_run E fuel ev) ts
          /\ sends (cycles 0 ts ++ recovery_noted
                    ++ cycle_ended (input_status w))
             = concat (map sends ts)
          /\ gpio_n w' = (S j + gpio_n w)%nat).
Proof.
  intros Hclock Hret Hfuel.
  assert (Hstart : forall k : nat,
    clock_now E (k + clock_n (tick_clock w))
    = clock_now E (clock_n w) + (Z.of_nat k + 1) * Board.sub_interval).
  { intros k. simpl.
    replace (k + S (clock_n w))%nat with (S k + clock_n w)%nat by lia.
    rewrite Hclock. lia. }
  split; [done|]. split.
  - intros Hhigh.
    destruct (check_alert_loop_cycles E fuel ev
                (clock_now E (clock_n w) + Board.total_duration) Hret
                6 (fuel - 6) (tick_clock w) (clock_now E (clock_n w)) 0)
      as (w' & ts & Hloop & Hlen & Hruns & Hg & _ & Hs);
      [done|exact Hstart|exact Hhigh|].
    replace (6 + (fuel - 6))%nat with fuel in Hloop by lia.
    rewrite (check_alert_loop_over (fuel - 6)) in Hloop
      by (unfold Board.total_duration, Board.sub_interval, timedelta, sec; lia).
    exists w', ts. split.
    + unfold Board.check_alert, bind, datetime_now. simpl.
      rewrite Hloop. simpl. rewrite Hs. simpl. by rewrite !app_nil_r.
    + rewrite sends_app, sends_cycles. simpl. rewrite app_nil_r. done.
  - intros j Hj Hhigh Hlow.
    destruct (check_alert_loop_cycles E fuel ev
                (clock_now E (clock_n w) + Board.total_duration) Hret
                j (S (fuel - S j)) (tick_clock w) (clock_now E (clock_n w)) 0)
      as (w' & ts & Hloop & Hlen & Hruns & Hg & _ & Hs).
    { unfold Board.total_duration, Board.sub_interval, timedelta, sec. lia. }
    { exact Hstart. }
    { exact Hhigh. }
    replace (j + S (fuel - S j))%nat with fuel in Hloop by lia.
    rewrite (check_alert_loop_low (fuel - S j)) in Hloop.
    + exists (tick_gpio w'), ts. split.
      * unfold Board.check_alert, bind, datetime_now. simpl.
        rewrite Hloop. simpl. rewrite Hs. simpl.
        by rewrite ?app_nil_r, <- ?app_assoc.
      * rewrite sends_app, sends_cycles. simpl. rewrite app_nil_r.
        simpl in Hg. rewrite Hg. done.
    + unfold Board.total_duration, Board.sub_interval, timedelta, sec. lia.
    + simpl in Hg. by rewrite Hg.
Qed.

(* ================================================================== *)
(** * [FreezerData.parse_csv] *)
(* ================================================================== *)

Lemma dict_zip_keys (fieldnames row : list string)
    (d : gmap string (option string)) (k : string) :
  is_Some (foldl (fun d kv => <[kv.1 := Some kv.2]> d) d (zip fieldnames row)
           !! k)
  <-> is_Some (d !! k) \/ k ∈ take (length row) fieldnames.
Proof.
  revert row d. induction fieldnames as [|f fs IH]; intros [|r row] d; simpl;
    rewrite ?take_nil, ?elem_of_nil; try tauto.
  rewrite IH, lookup_insert_is_Some', elem_of_cons. intuition congruence.
Qed.

Lemma restval_keys (keys : list string) (d : gmap string (option string))
    (k : string) :
  is_Some (foldl (fun d key => <[key := None]> d) d keys !! k)
  <-> is_Some (d !! k) \/ k ∈ keys.
Proof.
  revert d. induction keys as [|f fs IH]; intros d; simpl;
    rewrite ?elem_of_nil; try tauto.
  rewrite IH, lookup_insert_is_Some', elem_of_cons. intuition congruence.
Qed.

(** Every row of the reader has exactly the field names as its keys. *)
Lemma make_row_keys (fieldnames row : list string) (k : string) :
  is_Some (FreezerData.fields (FreezerData.make_row fieldnames row) !! k)
  <-> k ∈ fieldnames.
Proof.
  unfold FreezerData.make_row, FreezerData.dict_zip.
  destruct (length fieldnames <? length row)%nat eqn:Hlt; simpl.
  - apply Nat.ltb_lt in Hlt. rewrite dict_zip_keys, lookup_empty.
    rewrite take_ge by lia. rewrite <- not_eq_None_Some. tauto.
  - apply Nat.ltb_ge in Hlt.
    destruct (length row <? length fieldnames)%nat eqn:Hlt'; simpl.
    + rewrite restval_keys, dict_zip_keys, lookup_empty.
      rewrite <- (take_drop (length row) fieldnames) at 3.
      rewrite elem_of_app, <- not_eq_None_Some. tauto.
    + apply Nat.ltb_ge in Hlt'. rewrite dict_zip_keys, lookup_empty.
      rewrite take_ge by lia. rewrite <- not_eq_None_Some. tauto.
Qed.

(** With a column [IP], the loop stops at the first row that matches. *)
Lemma parse_rows_with_ip_column ip fieldnames rows pending self :
  "IP" ∈ fieldnames ->
  FreezerData.parse_rows ip (map (FreezerData.make_row fieldnames) rows)
    pending self
  = match List.find (matches_ip ip)
            (map (FreezerData.make_row fieldnames) rows) with
    | Some row => inr (FreezerData.mk row)
    | None =>
        match pending with
        | Some e => inl e
        | None => inr self
        end
    end.
Proof.
  intros Hip. induction rows as [|r rows IH]; [done|].
  cbn [map FreezerData.parse_rows List.find]. unfold matches_ip at 1.
  destruct (proj2 (make_row_keys fieldnames r "IP") Hip) as [v Hv].
  rewrite Hv.
  destruct (decide (v = Some ip)) as [->|Hne].
  - by rewrite !bool_decide_eq_true_2.
  - rewrite !bool_decide_eq_false_2 by congruence. exact IH.
Qed.

(** Without one, no row matches, and the first row raises [KeyError]. *)
Lemma parse_rows_without_ip_column ip fieldnames rows self :
  "IP" ∉ fieldnames ->
  List.find (matches_ip ip) (map (FreezerData.make_row fieldnames) rows) = None
  /\ (FreezerData.parse_rows ip (map (FreezerData.make_row fieldnames) rows)
        None self = inr self
      \/ FreezerData.parse_rows ip
           (map (FreezerData.make_row fieldnames) rows) None self
         = inl (KeyError "IP")).
Proof.
  intros Hip.
  assert (Hnone : forall r,
    FreezerData.fields (FreezerData.make_row fieldnames r) !! "IP" = None).
  { intros r. apply eq_None_not_Some. by rewrite make_row_keys. }
  split.
  - induction rows as [|r rows IH]; [done|].
    cbn [map List.find]. unfold matches_ip at 1.
    rewrite Hnone. by rewrite bool_decide_eq_false_2.
  - destruct rows as [|r rows]; [by left|right].
    cbn [map FreezerData.parse_rows]. by rewrite Hnone.
Qed.

Lemma parse_rows_reader ip lines self :
  match List.find (matches_ip ip) (FreezerData.DictReader lines) with
  | Some row =>
      FreezerData.parse_rows ip (FreezerData.DictReader lines) None self
      = inr (FreezerData.mk row)
  | None =>
      FreezerData.parse_rows ip (FreezerData.DictReader lines) None self
      = inr self
      \/ FreezerData.parse_rows ip (FreezerData.DictReader lines) None self
         = inl (KeyError "IP")
  end.
Proof.
  destruct lines as [|fieldnames rows]; [by left|].
  unfold FreezerData.DictReader.
  destruct (decide ("IP" ∈ fieldnames)) as [Hip|Hip].
  - rewrite parse_rows_with_ip_column by done.
    destruct (List.find _ _); [done|by left].
  - destruct (parse_rows_without_ip_column ip fieldnames
                (filter (fun r => r <> []) rows) self Hip) as [-> H].
    exact H.
Qed.

(** C9. Whatever the lines of the CSV file and the address [ip],
    [FreezerData.parse_csv] sets the data to the first row of the reader
    whose [IP] column is [ip]; when there is none it leaves the data as
    it was (and raises [KeyError] if the file has rows and no such
    column), so that the data of a fresh object stays [{}], and
    [Event.alert] takes that for a failed lookup: it calls
    [handle_error] and not [notify_recipients]. *)
Theorem parse_csv_first_matching_row
    (lines : list (list string)) (ip : string) (self : FreezerData.t)
    (E : Env) (w : World) (fuel : nat) (ev : Event.t) :
  csv_open E (csv_n w) = inr (readable lines) ->
  match List.find (matches_ip ip) (FreezerData.DictReader lines) with
  | Some row =>
      FreezerData.parse_csv ip self E w
      = Ok (FreezerData.mk row) (tick_csv w) []
  | None =>
      (FreezerData.parse_csv ip self E w = Ok self (tick_csv w) []
       \/ FreezerData.parse_csv ip self E w
          = Raise (KeyError "IP") (tick_csv w) [])
      /\ exists error,
           lookup_error ip E w = Some error
           /\ Event.alert fuel ev ip E w
              = Event.handle_error fuel ev error "Failed to parse CSV file"
                  E (tick_csv w)
  end.
Proof.
  intros Hopen.
  assert (Hparse : forall self, FreezerData.parse_csv ip self E w
    = match FreezerData.parse_rows ip (FreezerData.DictReader lines) None
              self with
      | inl e => Raise e (tick_csv w) []
      | inr self' => Ok self' (tick_csv w) []
      end).
  { intros self0. unfold FreezerData.parse_csv, FreezerData.open_csv, bind.
    rewrite Hopen. simpl.
    by destruct (FreezerData.parse_rows _ _ _ _). }
  pose proof (parse_rows_reader ip lines self) as Hrows.
  pose proof (parse_rows_reader ip lines FreezerData.init) as Hfresh.
  destruct (List.find _ _) as [row|].
  - by rewrite Hparse, Hrows.
  - split.
    + rewrite Hparse. destruct Hrows as [-> | ->]; auto.
    + assert (Herr : exists error, lookup_error ip E w = Some error).
      { unfold lookup_error. rewrite Hparse.
        destruct Hfresh as [-> | ->]; simpl; eauto. }
      destruct Herr as [error Herr]. exists error. split; [done|].
      by apply alert_lookup_fails.
Qed.

(* ================================================================== *)
(** * The start of [Board.monitor] *)
(* ================================================================== *)

Lemma monitor_start_run E w :
  Board.monitor_start E w
  = Ok tt (with_input_status (Some (gpio_input E (gpio_n w))) (tick_gpio w))
      (startup E (gpio_input E (gpio_n w))).
Proof.
  unfold Board.monitor_start, bind, ask, log, emit, GPIO_input,
    Board.set_input_status, Board.get_input_status, startup; simpl.
  destruct (gpio_input E (gpio_n w) =? 1); simpl; [|done].
  unfold Board.initiate_event, bind, Board.get_input_status, log, emit; simpl.
  done.
Qed.

(** The loop begins with its log record and the wait for an edge. *)
Lemma monitor_loop_begins n E w :
  exists w' rest,
    Board.monitor_loop (S n) E w
    = Ok tt w'
        ([ALog INFO "Monitoring for pin changes..." []; AWaitEdge] ++ rest).
Proof.
  cbn [Board.monitor_loop]. unfold bind at 1.
  destruct (decide (input_status w = Some (gpio_input E (gpio_n w)))) as [H|H].
  - rewrite monitor_pass_same by done.
    destruct (monitor_loop_returns n E (tick_gpio w)) as (w' & t & -> & _).
    eexists _, _. simpl. reflexivity.
  - rewrite monitor_pass_differs by done.
    match goal with
    | |- context [Board.monitor_loop n E ?w1] =>
        destruct (monitor_loop_returns n E w1) as (w' & t & -> & _)
    end.
    eexists _, _. simpl. reflexivity.
Qed.

(** C7. [Board.monitor] reads the pin once before its loop. If that
    read is HIGH (1), all it does before the first wait for an edge is
    to log, to start one event thread, under the words ALARM, with the
    input status at 1, so that the event then made of it has the status
    ALARM, and to log that it monitors; if the read is LOW (0) it
    starts no thread before the first wait. *)
Theorem monitor_startup_event (E : Env) (w : World) (n : nat) :
  let v := gpio_input E (gpio_n w) in
  (exists w1 w' rest,
     Board.monitor_start E w = Ok tt w1 (startup E v)
     /\ input_status w1 = Some v
     /\ Board.monitor (S n) E w
        = Ok tt w'
            (startup E v
             ++ [ALog INFO "Monitoring for pin changes..." []; AWaitEdge]
             ++ rest))
  /\ (v = 1 ->
      startup E v
      = [ ALog INFO "Beginning monitor of input for pin %s." [LInt (pin E)];
          ALog INFO "Initital status: %s" [LStr "ALARM"];
          ALog INFO "Pin input status changed to %s"
               [LStr "ALARM; initiating alarm event."];
          AStartThread "EventThread" ]
      /\ threads_started (startup E v) = 1%nat
      /\ forall now, Event.get_event_status (Event.init now (Some v)) = "ALARM")
  /\ (v = 0 ->
      startup E v
      = [ ALog INFO "Beginning monitor of input for pin %s." [LInt (pin E)];
          ALog INFO "Initital status: %s" [LStr "RECOVERY"] ]
      /\ threads_started (startup E v) = 0%nat).
Proof.
  intros v. split; [|split].
  - destruct (monitor_loop_begins n E
      (with_input_status (Some v) (tick_gpio w))) as (w' & rest & Hloop).
    eexists _, w', rest. split; [apply monitor_start_run|].
    split; [done|].
    unfold Board.monitor, bind. rewrite monitor_start_run.
    fold v. by rewrite Hloop.
  - intros ->. done.
  - intros ->. done.
Qed.

(* ================================================================== *)
(** * The debounce of [Board.monitor] *)
(* ================================================================== *)

(** A pass starts a thread if and only if the first read after the
    debounce differs from the stored level. *)
Lemma monitor_pass_initiates_iff_differs E w :
  exists w' t,
    Board.monitor_pass E w = Ok tt w' t
    /\ (threads_started t = 1%nat
        <-> input_status w <> Some (gpio_input E (gpio_n w)))
    /\ (threads_started t = 0%nat
        <-> input_status w = Some (gpio_input E (gpio_n w))).
Proof.
  destruct (decide (input_status w = Some (gpio_input E (gpio_n w)))) as [H|H].
  - rewrite monitor_pass_same by done. eexists _, _. split; [done|].
    simpl. split; split; done.
  - rewrite monitor_pass_differs by done. eexists _, _. split; [done|].
    simpl. split; split; done.
Qed.

(** Bounce is suppressed: passes whose read after the debounce gives the
    stored level start no thread and leave the stored level alone. *)
Lemma monitor_loop_suppresses_bounce E n :
  forall w,
    reads_stay E w n ->
    exists w' t,
      Board.monitor_loop n E w = Ok tt w' t
      /\ threads_started t = 0%nat
      /\ input_status w' = input_status w.
Proof.
  induction n as [|n IH]; intros w Hstay.
  - by eexists _, _.
  - assert (H0 : input_status w = Some (gpio_input E (gpio_n w)))
      by apply (Hstay O), Nat.lt_0_succ.
    destruct (IH (tick_gpio w)) as (w' & t & Hloop & Ht & Hs).
    { intros k Hk. simpl.
      replace (k + S (gpio_n w))%nat with (S k + gpio_n w)%nat by lia.
      apply Hstay. lia. }
    exists w', (quiet_pass ++ t). split; [|split].
    + cbn [Board.monitor_loop]. unfold bind.
      rewrite monitor_pass_same by done. by rewrite Hloop.
    + simpl. exact Ht.
    + exact Hs.
Qed.

(** C6 (the code at the failing input). The stored level is 0; after the
    debounce the pin reads 1, which differs, and is read again and reads
    0: the pass stores 0, not what the first read gave, and starts an
    event thread, under the word RECOVERY, although the stored level is
    what it was. *)
Theorem monitor_pass_stores_second_read :
  exists w',
    gpio_input bounce 0 = 1
    /\ gpio_input bounce 1 = 0
    /\ Board.monitor_pass bounce (world (Some 0))
       = Ok tt w' (quiet_pass ++ event_initiated (Some 0))
    /\ input_status w' = Some 0
    /\ input_status w' <> Some (gpio_input bounce 0)
    /\ threads_started (quiet_pass ++ event_initiated (Some 0)) = 1%nat.
Proof. eexists. vm_compute. repeat split; congruence. Qed.

(* ================================================================== *)
(** * The interval of the retry loop *)
(* ================================================================== *)

(** C8 (the code as it is). Every pass of the retry loop sleeps once, for
    5 seconds, which is not the 5 minutes (300 seconds) that the doc
    string of [handle_email_error], its comment and the log record of
    [handle_error] announce. *)
Theorem retry_interval_is_five_seconds :
  Event.retry_interval = sec 5
  /\ Event.retry_interval <> sec 300
  /\ forall email count E w,
       sleeps (trace_of (Event.handle_email_error_pass email count E w))
       = [sec 5].
Proof.
  split; [done|]. split; [done|].
  intros email count E w.
  destruct (smtp_sendmail E (smtp_n w)) as [d|] eqn:Hs.
  - by rewrite (handle_email_error_pass_fails _ _ _ _ d).
  - by rewrite handle_email_error_pass_delivers.
Qed.

(* ================================================================== *)
(** * The properties at work *)
(* ================================================================== *)

(** The test of [tests/test_freezer_data.py]. *)
Example test_parse_csv :
  FreezerData.parse_csv "92.168.1.100" FreezerData.init all_well (world None)
  = Ok (FreezerData.mk
          (FreezerData.Dict
             (list_to_map
                [ ("Freezer Number", Some "3"); ("Department", Some "Chemistry");
                  ("PI", Some "Person3");
                  ("Email", Some "minus80-Person3@chem.umass.edu");
                  ("MFG", Some "Thermo Fisher");
                  ("Model Number", Some "TSU 500D");
                  ("Location", Some "LGRT 3"); ("Jack Number", Some "");
                  ("IP", Some "92.168.1.100");
                  ("Hostname", Some "minus80-Person3-1");
                  ("MAC", Some "aa:bb:cc:dd:ee:ff"); ("Comments", Some "") ])
             (Some [""])))
       (tick_csv (world None)) [].
Proof. by vm_compute. Qed.

(** C1 (counterexample). A flow enters the re-alert cycle although the
    mail to the owner of the freezer was not delivered (the mail to the
    IT team was), another although its lookup failed, and a third
    although its event is a RECOVERY: the monitor has set the input
    status to 1 before [event.alert] returned. *)
Lemma cycle_entered_without_primary_delivery :
  (exists w1 t1,
     Board.alert_notify 10 primary_down (world (Some 1))
     = Ok (Event.mk 0 "ALARM") w1 t1
     /\ map (fun s => (msg_to s.1, s.2)) (sends t1)
        = [ (Some "minus80-Person3@chem.umass.edu", Some "Connection refused");
            (Some "it@test.edu", None) ])
  /\ cycle_entered (trace_of (Board.alert 10 primary_down (world (Some 1))))
     = true
  /\ lookup_error (ip no_csv) no_csv (tick_clock (world (Some 1)))
     = Some FileNotFoundError
  /\ cycle_entered (trace_of (Board.alert 10 no_csv (world (Some 1)))) = true
  /\ Forall (fun s => msg_to s.1 = Some "it@test.edu")
       (sends (trace_of (Board.alert 10 no_csv (world (Some 1)))))
  /\ Event.get_event_status (event_of all_well (world (Some 0))) = "RECOVERY"
  /\ cycle_entered
       (trace_of (Board.alert_beside_monitor 10 1 all_well (world (Some 0))))
     = true.
Proof.
  split; [|split; [|split; [|split; [|split; [|split]]]]].
  - vm_compute. eexists _, _. split; reflexivity.
  - by vm_compute.
  - by vm_compute.
  - by vm_compute.
  - vm_compute. repeat constructor.
  - by vm_compute.
  - by vm_compute.
Qed.

(** C4 (counterexample). The lookup succeeds, the mail to the owner is
    not delivered, the mail to the IT team is, and yet the flow makes
    eight delivery attempts: with the input status at 1 the re-alert
    cycle follows and sends six more mails. *)
Lemma primary_fails_it_delivers_eight_attempts :
  lookup_error (ip primary_down) primary_down (tick_clock (world (Some 1)))
  = None
  /\ smtp_sendmail primary_down 0 = Some "Connection refused"
  /\ smtp_sendmail primary_down 1 = None
  /\ exists w' t,
       Board.alert 10 primary_down (world (Some 1)) = Ok tt w' t
       /\ map (fun s => (msg_to s.1, s.2)) (take 2 (sends t))
          = [ (Some "minus80-Person3@chem.umass.edu",
               Some "Connection refused");
              (Some "it@test.edu", None) ]
       /\ length (sends t) = 8%nat.
Proof.
  repeat split; try by vm_compute.
  vm_compute. eexists _, _. repeat split.
Qed.

(** ** The retry loop: the server fails twice, then delivers *)

Lemma handle_email_error_retries_same_message_witness :
  smtp_fails (scenario (fun _ => 1) (down_for 2) (fun _ => None)) 0
    ["Connection refused"; "Connection refused"]
  /\ Event.handle_email_error 3 (Email.mk (Some "it@test.edu") "s" "b")
       (scenario (fun _ => 1) (down_for 2) (fun _ => None)) (world (Some 1))
     = Ok tt (advance_smtp 3 (world (Some 1)))
         (failed_passes (Email.mk (Some "it@test.edu") "s" "b") 0
            ["Connection refused"; "Connection refused"]
          ++ delivered_pass (Email.mk (Some "it@test.edu") "s" "b")).
Proof.
  assert (Hf : smtp_fails (scenario (fun _ => 1) (down_for 2) (fun _ => None))
                 0 ["Connection refused"; "Connection refused"])
    by (simpl; repeat split; reflexivity).
  split; [exact Hf|].
  apply (handle_email_error_retries_same_message
           (scenario (fun _ => 1) (down_for 2) (fun _ => None))
           (world (Some 1)) (Email.mk (Some "it@test.edu") "s" "b")
           ["Connection refused"; "Connection refused"] 0 Hf).
  reflexivity.
Defined.

(** ** The pin goes LOW while the ALARM is notified *)

Lemma alert_cycle_follows_shared_input_status_witness :
  exists ev w1 t1 w2 t2,
    Board.alert_notify 10 pin_low (world (Some 1)) = Ok ev w1 t1
    /\ Board.monitor_loop 1 pin_low w1 = Ok tt w2 t2
    /\ (cycle_entered
          (trace_of (Board.alert_beside_monitor 10 1 pin_low (world (Some 1))))
        = true
        <-> input_status w2 = Some 1).
Proof.
  destruct (Board.alert_notify 10 pin_low (world (Some 1)))
    as [ev w1 t1| |] eqn:Hnotify; [|by vm_compute in Hnotify..].
  destruct (proj1 alert_cycle_follows_shared_input_status pin_low
              (world (Some 1)) 10%nat 1%nat ev w1 t1 Hnotify)
    as (w2 & t2 & Hloop & _ & Hiff).
  by exists ev, w1, t1, w2, t2.
Defined.

(** ** The cycle: six calls of [event.alert] *)

Lemma check_alert_realerts_witness :
  ideal_clock all_well (world (Some 1))
  /\ alert_returns all_well 6 (Event.mk 0 "ALARM")
  /\ reads_high all_well (world (Some 1)) 6
  /\ exists w' ts,
       Board.check_alert 6 (Event.mk 0 "ALARM") all_well (world (Some 1))
       = Ok tt w' (cycles 0 ts ++ cycle_ended (Some 1))
       /\ length ts = 6%nat.
Proof.
  assert (Hclock : ideal_clock all_well (world (Some 1))).
  { intros k. simpl. lia. }
  assert (Hret : alert_returns all_well 6 (Event.mk 0 "ALARM")).
  { intros [s g m c v]. vm_compute. eexists _, _. reflexivity. }
  assert (Hhigh : reads_high all_well (world (Some 1)) 6) by (by intros k _).
  split; [exact Hclock|]. split; [exact Hret|]. split; [exact Hhigh|].
  destruct (check_alert_realerts all_well (world (Some 1)) 6
              (Event.mk 0 "ALARM") Hclock Hret (le_n 6)) as (_ & Hsix & _).
  destruct (Hsix Hhigh) as (w' & ts & Hrun & Hlen & _).
  exists w', ts. split; [exact Hrun|exact Hlen].
Defined.

(** ** The lookup on the test file *)

Lemma parse_csv_first_matching_row_witness :
  csv_open all_well 0 = inr (readable freezer_test_csv)
  /\ FreezerData.parse_csv "92.168.1.100" FreezerData.init all_well
       (world None)
     = Ok (FreezerData.mk freezer_3) (tick_csv (world None)) [].
Proof.
  split; [reflexivity|].
  exact (parse_csv_first_matching_row freezer_test_csv "92.168.1.100"
           FreezerData.init all_well (world None) 0 (Event.mk 0 "ALARM")
           eq_refl).
Defined.

(** ** The start of the monitor with the pin HIGH *)

Lemma monitor_startup_event_witness :
  gpio_input all_well 0 = 1
  /\ threads_started (startup all_well 1) = 1%nat.
Proof.
  split; [reflexivity|].
  destruct (monitor_startup_event all_well (world None) 0)
    as (_ & Hhigh & _).
  destruct (Hhigh eq_refl) as (_ & Hone & _). exact Hone.
Defined.

(** ** The cycle when the pin recovers *)

(** The pin is HIGH for two reads and LOW at the third: two re-alerts,
    three reads of the pin, and the cycle ends 30 s into the window. *)
Example check_alert_recovers_after_two :
  exists w' t,
    Board.check_alert 6 (Event.mk 0 "ALARM") (recovers_after 2)
      (world (Some 1))
    = Ok tt w' t
    /\ length (sends t) = 2%nat
    /\ gpio_n w' = 3%nat
    /\ sleeps t = [sec 10; sec 10; sec 10].
Proof. vm_compute. eexists _, _. repeat split. Qed.

(** The pin stays HIGH: six re-alerts, each one mail to the owner. *)
Example check_alert_six_mails :
  exists w' t,
    Board.check_alert 6 (Event.mk 0 "ALARM") all_well (world (Some 1))
    = Ok tt w' t
    /\ map (fun s => (msg_to s.1, s.2)) (sends t)
       = replicate 6 (Some "minus80-Person3@chem.umass.edu", None)
    /\ gpio_n w' = 6%nat.
Proof. vm_compute. eexists _, _. repeat split. Qed.

(** ** The schedule in which the monitor does nothing *)

Lemma alert_beside_monitor_0 fuel E w :
  Board.alert_beside_monitor fuel 0 E w = Board.alert fuel E w.
Proof.
  unfold Board.alert_beside_monitor, Board.alert, bind.
  destruct (Board.alert_notify fuel E w) as [ev w1 t1| |]; [|done..].
  simpl. unfold ret. simpl.
  by destruct (Board.alert_cycle fuel ev E w1).
Qed.

(* ================================================================== *)
(** * More on the lookup *)
(* ================================================================== *)

Lemma parse_csv_opened ip self E w file :
  csv_open E (csv_n w) = inr file ->
  FreezerData.parse_csv ip self E w
  = match FreezerData.parse_rows ip (FreezerData.DictReader (csv_lines file))
            (csv_error file) self with
    | inl e => Raise e (tick_csv w) []
    | inr self' => Ok self' (tick_csv w) []
    end.
Proof.
  intros Hopen. unfold FreezerData.parse_csv, FreezerData.open_csv, bind.
  rewrite Hopen. simpl. by destruct (FreezerData.parse_rows _ _ _ _).
Qed.

(** A row with a column [IP] is not [{}]. *)
Lemma is_empty_with_ip row v :
  FreezerData.fields row !! "IP" = Some v -> FreezerData.is_empty row = false.
Proof.
  intros H. unfold FreezerData.is_empty.
  rewrite bool_decide_eq_false_2; [done|].
  intros Hempty. by rewrite Hempty, lookup_empty in H.
Qed.

Lemma matches_ip_true ip row :
  matches_ip ip row = true <-> FreezerData.fields row !! "IP" = Some (Some ip).
Proof. unfold matches_ip. apply bool_decide_eq_true. Qed.

(** X1. When the CSV file can be read, the lookup of [Event.alert]
    succeeds exactly when some row of the reader has [ip] in its column
    [IP], and the row it then notifies for is the first such row. *)
Theorem lookup_is_first_matching_row
    (E : Env) (w : World) (ip : string) (lines : list (list string)) :
  csv_open E (csv_n w) = inr (readable lines) ->
  lookup_data ip E w
  = List.find (matches_ip ip) (FreezerData.DictReader lines)
  /\ (lookup_error ip E w = None
      <-> exists row,
            In row (FreezerData.DictReader lines)
            /\ FreezerData.fields row !! "IP" = Some (Some ip)).
Proof.
  intros Hopen.
  pose proof (parse_rows_reader ip lines FreezerData.init) as Hrows.
  unfold lookup_data, lookup_error.
  rewrite (parse_csv_opened _ _ _ _ _ Hopen).
  unfold readable. cbn [csv_lines csv_error].
  destruct (List.find _ _) as [row|] eqn:Hfind.
  - rewrite Hrows. simpl.
    apply find_some in Hfind as [Hin Hm]. apply matches_ip_true in Hm.
    rewrite (is_empty_with_ip _ _ Hm). split; [done|].
    split; [eauto|done].
  - assert (Hnone : forall row,
      In row (FreezerData.DictReader lines) ->
      FreezerData.fields row !! "IP" <> Some (Some ip)).
    { intros row Hin Hm. apply matches_ip_true in Hm.
      by rewrite (find_none _ _ Hfind row Hin) in Hm. }
    destruct Hrows as [-> | ->]; simpl.
    + split; [done|]. split; [done|]. intros (row & Hin & Hm).
      by destruct (Hnone row Hin).
    + split; [done|]. split; [done|]. intros (row & Hin & Hm).
      by destruct (Hnone row Hin).
Qed.

Lemma lookup_is_first_matching_row_witness :
  lookup_data "92.168.1.100" all_well (world None) = Some freezer_3.
Proof.
  rewrite (proj1 (lookup_is_first_matching_row all_well (world None)
                    "92.168.1.100" freezer_test_csv eq_refl)).
  by vm_compute.
Defined.

(** X2. The errors of the lookup of [Event.alert]: the exception of
    [open] when the file cannot be opened ([FileNotFoundError],
    [IsADirectoryError], ...); [KeyError] on [IP] when the reader gives a
    row and the file has no column [IP], whatever [ip]; and, when the
    reader gives no row, or rows with the column and none with [ip] in
    it, the exception the reader ends with if reading fails, and else
    the exception "CSV data returned empty.". *)
Theorem lookup_error_kinds (E : Env) (w : World) (ip : string) :
  lookup_error ip E w
  = match csv_open E (csv_n w) with
    | inl e => Some e
    | inr file =>
        let no_row :=
          match csv_error file with
          | Some e => Some e
          | None => Some (Exception "CSV data returned empty.")
          end in
        match FreezerData.DictReader (csv_lines file) with
        | [] => no_row
        | row :: _ =>
            match FreezerData.fields row !! "IP" with
            | None => Some (KeyError "IP")
            | Some _ =>
                if existsb (matches_ip ip)
                     (FreezerData.DictReader (csv_lines file))
                then None
                else no_row
            end
        end
    end.
Proof.
  destruct (csv_open E (csv_n w)) as [e|[lines pending]] eqn:Hopen.
  - unfold lookup_error, FreezerData.parse_csv, FreezerData.open_csv, bind.
    by rewrite Hopen.
  - unfold lookup_error. rewrite (parse_csv_opened _ _ _ _ _ Hopen).
    cbn [csv_lines csv_error].
    destruct lines as [|fieldnames rows]; [by destruct pending|].
    unfold FreezerData.DictReader.
    set (body := filter (fun r => r <> []) rows).
    destruct (decide ("IP" ∈ fieldnames)) as [Hip|Hip].
    + rewrite parse_rows_with_ip_column by done.
      destruct body as [|r body]; [by destruct pending|]. cbn [map].
      destruct (proj2 (make_row_keys fieldnames r "IP") Hip) as [v ->].
      change (FreezerData.make_row fieldnames r
              :: map (FreezerData.make_row fieldnames) body)
        with (map (FreezerData.make_row fieldnames) (r :: body)).
      destruct (List.find _ _) as [row|] eqn:Hfind.
      * apply find_some in Hfind as [Hin Hm].
        rewrite (proj2 (existsb_exists _ _)) by eauto.
        apply matches_ip_true in Hm. simpl.
        by rewrite (is_empty_with_ip _ _ Hm).
      * destruct (existsb _ _) eqn:Hex; [|by destruct pending].
        apply existsb_exists in Hex as (row & Hin & Hm).
        by rewrite (find_none _ _ Hfind row Hin) in Hm.
    + destruct body as [|r body]; [by destruct pending|].
      cbn [map FreezerData.parse_rows].
      assert (Hnone : FreezerData.fields (FreezerData.make_row fieldnames r)
                      !! "IP" = None).
      { apply eq_None_not_Some. by rewrite make_row_keys. }
      by rewrite Hnone.
Qed.

(* ================================================================== *)
(** * More on [Event.alert] *)
(* ================================================================== *)

(** The lookup fails or finds a row. *)
Lemma lookup_fails_or_finds ip E w :
  (exists error, lookup_error ip E w = Some error)
  \/ (exists data, lookup_data ip E w = Some data).
Proof.
  unfold lookup_error, lookup_data.
  destruct (parse_csv_result ip FreezerData.init E w) as [[fd ->]|[e ->]].
  - destruct (FreezerData.is_empty _); eauto.
  - eauto.
Qed.

(** X3. When the row found has no column [Location], or has it and has
    no column [Email], [Event.alert] raises [KeyError] after its first
    log record: no mail is attempted, to the owner or to the IT team.
    [Board.alert] raises with it, so that the thread of the event ends
    there, with no re-alert cycle even with the input status at 1. *)
Theorem alert_missing_column_raises
    (E : Env) (w : World) (fuel : nat) (data : FreezerData.dict) :
  lookup_data (ip E) E w = Some data ->
  let parsed := [ALog INFO "%s." [LStr "Parsed CSV file for freezer data"]] in
  (FreezerData.fields data !! "Location" = None ->
   (forall ev, Event.alert fuel ev (ip E) E w
               = Raise (KeyError "Location") (tick_csv w) parsed)
   /\ Board.alert fuel E w
      = Raise (KeyError "Location") (tick_csv (tick_clock w)) parsed)
  /\ (is_Some (FreezerData.fields data !! "Location") ->
      FreezerData.fields data !! "Email" = None ->
      (forall ev, Event.alert fuel ev (ip E) E w
                  = Raise (KeyError "Email") (tick_csv w) parsed)
      /\ Board.alert fuel E w
         = Raise (KeyError "Email") (tick_csv (tick_clock w)) parsed).
Proof.
  intros Hdata parsed.
  assert (Hdata' : lookup_data (ip E) E (tick_clock w) = Some data)
    by (by rewrite (lookup_data_same_file _ _ _ w)).
  assert (Hloc : FreezerData.fields data !! "Location" = None ->
    forall ev w0, lookup_data (ip E) E w0 = Some data ->
      Event.alert fuel ev (ip E) E w0
      = Raise (KeyError "Location") (tick_csv w0) parsed).
  { intros Hl ev w0 Hd. rewrite (alert_lookup_succeeds _ _ _ _ _ _ Hd).
    unfold Event.notify_recipients, Event.getitem, bind, ask, log, emit;
      simpl. by rewrite Hl. }
  assert (Hmail : is_Some (FreezerData.fields data !! "Location") ->
    FreezerData.fields data !! "Email" = None ->
    forall ev w0, lookup_data (ip E) E w0 = Some data ->
      Event.alert fuel ev (ip E) E w0
      = Raise (KeyError "Email") (tick_csv w0) parsed).
  { intros [l Hl] Hr ev w0 Hd. rewrite (alert_lookup_succeeds _ _ _ _ _ _ Hd).
    unfold Event.notify_recipients, Event.getitem, bind, ask, log, emit;
      simpl. rewrite Hl; simpl. by rewrite Hr. }
  split.
  - intros Hl. split; [intros ev; by apply Hloc|].
    unfold Board.alert, bind. rewrite alert_notify_run.
    by rewrite (Hloc Hl _ _ Hdata').
  - intros Hl Hr. split; [intros ev; by apply Hmail|].
    unfold Board.alert, bind. rewrite alert_notify_run.
    by rewrite (Hmail Hl Hr _ _ Hdata').
Qed.

Lemma alert_missing_column_raises_witness :
  lookup_data (ip no_location) no_location (world (Some 1))
  = Some (FreezerData.make_row ["Email"; "IP"]
            ["owner@test.edu"; "92.168.1.100"])
  /\ Board.alert 1 no_location (world (Some 1))
     = Raise (KeyError "Location") (tick_csv (tick_clock (world (Some 1))))
         [ALog INFO "%s." [LStr "Parsed CSV file for freezer data"]].
Proof.
  assert (Hdata : lookup_data (ip no_location) no_location (world (Some 1))
    = Some (FreezerData.make_row ["Email"; "IP"]
              ["owner@test.edu"; "92.168.1.100"])) by (by vm_compute).
  split; [exact Hdata|].
  destruct (alert_missing_column_raises no_location (world (Some 1)) 1 _ Hdata)
    as [Hloc _].
  destruct (Hloc eq_refl) as [_ Hboard]. exact Hboard.
Defined.

(** X4. When the row found has the columns [Location] and [Email] and
    the server takes the mail, [Event.alert] makes one delivery attempt,
    of the message for the owner of the freezer, and returns: the IT team
    gets no mail. *)
Theorem alert_delivers_to_owner_once
    (E : Env) (w : World) (fuel : nat) (ev : Event.t) (ip : string)
    (data : FreezerData.dict) (location recipient : option string) :
  lookup_data ip E w = Some data ->
  FreezerData.fields data !! "Location" = Some location ->
  FreezerData.fields data !! "Email" = Some recipient ->
  smtp_sendmail E (smtp_n w) = None ->
  Event.alert fuel ev ip E w
  = Ok tt (tick_smtp (tick_csv w)) (primary_delivered ev E location recipient)
  /\ sends (primary_delivered ev E location recipient)
     = [(primary_message ev E location recipient, None)]
  /\ msg_to (primary_message ev E location recipient) = recipient.
Proof.
  intros Hdata Hl Hr Hs.
  rewrite (alert_lookup_succeeds _ _ _ _ _ _ Hdata).
  by rewrite (notify_recipients_delivered _ _ _ _ _ _ _ Hl Hr).
Qed.

Lemma alert_delivers_to_owner_once_witness :
  lookup_data "92.168.1.100" all_well (world (Some 0)) = Some freezer_3
  /\ map (fun s => (msg_to s.1, s.2))
       (sends (trace_of (Event.alert 0 (Event.mk 0 "RECOVERY") "92.168.1.100"
                           all_well (world (Some 0)))))
     = [(Some "minus80-Person3@chem.umass.edu", None)].
Proof.
  assert (Hdata : lookup_data "92.168.1.100" all_well (world (Some 0))
                  = Some freezer_3) by (by vm_compute).
  split; [exact Hdata|].
  destruct (alert_delivers_to_owner_once all_well (world (Some 0)) 0
              (Event.mk 0 "RECOVERY") "92.168.1.100" freezer_3
              (Some "LGRT 3") (Some "minus80-Person3@chem.umass.edu")
              Hdata eq_refl eq_refl eq_refl) as (-> & _ & _).
  reflexivity.
Defined.

Lemma all_failed_failed_passes email count ds :
  all_failed (sends (failed_passes email count ds)).
Proof.
  rewrite sends_failed_passes. unfold all_failed.
  induction ds; constructor; done.
Qed.

Lemma one_delivery_after {A} (t1 : list action) (r : result A) :
  all_failed (sends t1) ->
  one_delivery (fun _ => False) r ->
  one_delivery (fun _ => False) (after t1 r).
Proof.
  intros Ht1. destruct r as [a w t|e w t|t]; simpl.
  - intros (fs & m & Hs & Hfs). exists (sends t1 ++ fs), m.
    rewrite sends_app, Hs, app_assoc. split; [done|]. by apply Forall_app.
  - by intros [_ []].
  - intros Ht. rewrite sends_app. by apply Forall_app.
Qed.

Lemma one_delivery_weaken {A} (raises : exn -> Prop) (r : result A) :
  one_delivery (fun _ => False) r -> one_delivery raises r.
Proof. destruct r; simpl; try done. by intros [_ []]. Qed.

Lemma one_delivery_retry fuel email E w :
  one_delivery (fun _ => False) (Event.handle_email_error fuel email E w).
Proof.
  unfold Event.handle_email_error.
  destruct (handle_email_error_loop_outcome email E fuel 0 w)
    as [(ds & _ & _ & _ & ->)|(ds & _ & _ & ->)]; simpl.
  - exists (sends (failed_passes email 0 ds)), (Email.message email).
    rewrite sends_app. split; [done|]. apply all_failed_failed_passes.
  - apply all_failed_failed_passes.
Qed.

Lemma one_delivery_handle_error fuel self error error_message E w :
  one_delivery (fun _ => False)
    (Event.handle_error fuel self error error_message E w).
Proof.
  destruct (smtp_sendmail E (smtp_n w)) as [d|] eqn:Hs.
  - rewrite (handle_error_it_fails _ _ _ _ _ _ d Hs).
    apply one_delivery_after; [|apply one_delivery_retry].
    simpl. by repeat constructor.
  - rewrite (handle_error_it_delivered _ _ _ _ _ _ Hs). simpl.
    exists [], (it_message self E error_message). split; [done|constructor].
Qed.

(** X5. Whatever the file and the mail server do, a run of [Event.alert]
    that returns has delivered exactly one mail, its last attempt, all
    attempts before that having failed; a run that is still in the retry
    loop has delivered none; and a run that raises does so on a missing
    column [Location] or [Email], before any attempt. *)
Theorem alert_returns_after_one_delivery
    (E : Env) (w : World) (fuel : nat) (ev : Event.t) (ip : string) :
  one_delivery missing_column (Event.alert fuel ev ip E w).
Proof.
  destruct (lookup_fails_or_finds ip E w) as [[error Herr]|[data Hdata]].
  - rewrite (alert_lookup_fails _ _ _ _ _ _ Herr).
    apply one_delivery_weaken, one_delivery_handle_error.
  - rewrite (alert_lookup_succeeds _ _ _ _ _ _ Hdata).
    destruct (FreezerData.fields data !! "Location") as [location|] eqn:Hl.
    + destruct (FreezerData.fields data !! "Email") as [recipient|] eqn:Hr.
      * destruct (smtp_sendmail E (smtp_n (tick_csv w))) as [d|] eqn:Hs.
        -- rewrite (notify_recipients_failed _ _ _ _ _ _ _ d Hl Hr Hs).
           apply one_delivery_weaken, one_delivery_after;
             [|apply one_delivery_handle_error].
           simpl. by repeat constructor.
        -- rewrite (notify_recipients_delivered _ _ _ _ _ _ _ Hl Hr Hs).
           simpl. exists [], (primary_message ev E location recipient).
           split; [done|constructor].
      * unfold Event.notify_recipients, Event.getitem, bind, ask, log, emit;
          simpl. rewrite Hl; simpl. rewrite Hr; simpl.
        split; [done|by right].
    + unfold Event.notify_recipients, Event.getitem, bind, ask, log, emit;
        simpl. rewrite Hl; simpl. split; [done|by left].
Qed.

(* ================================================================== *)
(** * What [Event.alert] leaves behind *)
(* ================================================================== *)

Lemma threads_started_app t1 t2 :
  threads_started (t1 ++ t2) = (threads_started t1 + threads_started t2)%nat.
Proof.
  induction t1 as [|a t1 IH]; [done|]. destruct a; simpl; by rewrite ?IH.
Qed.

Lemma edge_waits_app t1 t2 :
  edge_waits (t1 ++ t2) = (edge_waits t1 + edge_waits t2)%nat.
Proof.
  induction t1 as [|a t1 IH]; [done|]. destruct a; simpl; by rewrite ?IH.
Qed.

Lemma mail_footprint_refl w : mail_footprint w w [].
Proof. unfold mail_footprint. auto using keeps_board_refl. Qed.

Lemma mail_footprint_trans w w1 w2 t1 t2 :
  mail_footprint w w1 t1 -> mail_footprint w1 w2 t2 ->
  mail_footprint w w2 (t1 ++ t2).
Proof.
  intros (Hk1 & Hc1 & Hs1 & Ht1 & He1) (Hk2 & Hc2 & Hs2 & Ht2 & He2).
  unfold mail_footprint.
  rewrite sends_app, length_app, threads_started_app, edge_waits_app.
  rewrite Hc2, Hc1, Hs2, Hs1, Ht1, Ht2, He1, He2.
  split; [by apply (keeps_board_trans _ w1)|]. repeat split; lia.
Qed.

Section Leaves.
Context (E : Env) (Q : World -> World -> list action -> Prop).
Hypothesis Q_refl : forall w, Q w w [].
Hypothesis Q_trans :
  forall w w1 w2 t1 t2, Q w w1 t1 -> Q w1 w2 t2 -> Q w w2 (t1 ++ t2).

Lemma leaves_ret {A} (a : A) : leaves E Q (ret a).
Proof. intros w. apply Q_refl. Qed.

Lemma leaves_raise {A} e : leaves E Q (@raise A e).
Proof. intros w. apply Q_refl. Qed.

Lemma leaves_out_of_fuel {A} : leaves E Q (@out_of_fuel A).
Proof. by intros w. Qed.

Lemma leaves_ask {A} (f : Env -> A) : leaves E Q (ask f).
Proof. intros w. apply Q_refl. Qed.

Lemma leaves_emit a : (forall w, Q w w [a]) -> leaves E Q (emit a).
Proof. intros Ha w. apply Ha. Qed.

Lemma leaves_after {A} w w1 t1 (r : result A) :
  Q w w1 t1 ->
  match r with
  | Ok _ w' t | Raise _ w' t => Q w1 w' t
  | OutOfFuel _ => True
  end ->
  match after t1 r with
  | Ok _ w' t | Raise _ w' t => Q w w' t
  | OutOfFuel _ => True
  end.
Proof. intros H1. destruct r; simpl; eauto. Qed.

Lemma leaves_bind {A B} (m : M A) (k : A -> M B) :
  leaves E Q m -> (forall a, leaves E Q (k a)) -> leaves E Q (bind m k).
Proof.
  intros Hm Hk w. unfold bind. specialize (Hm w).
  destruct (m E w) as [a w1 t1|e w1 t1|t1]; try done.
  apply (leaves_after w w1); [done|apply Hk].
Qed.

Lemma leaves_try_except {A} (m : M A) (h : exn -> M A) :
  leaves E Q m -> (forall e, leaves E Q (h e)) -> leaves E Q (try_except m h).
Proof.
  intros Hm Hh w. unfold try_except. specialize (Hm w).
  destruct (m E w) as [a w1 t1|e w1 t1|t1]; try done.
  apply (leaves_after w w1); [done|apply Hh].
Qed.

Lemma leaves_send_email email :
  (forall w r, Q w (tick_smtp w) [ASendmail (Email.message email) r]) ->
  leaves E Q (Email.send_email email).
Proof.
  intros HQ w. unfold Email.send_email.
  destruct (smtp_sendmail E (smtp_n w)); apply HQ.
Qed.

End Leaves.

Lemma mail_footprint_log lvl fmt args w :
  mail_footprint w w [ALog lvl fmt args].
Proof. unfold mail_footprint. auto using keeps_board_refl. Qed.

Lemma mail_footprint_sleep us w : mail_footprint w w [ASleep us].
Proof. unfold mail_footprint. auto using keeps_board_refl. Qed.

Lemma mail_footprint_sendmail m r w :
  mail_footprint w (tick_smtp w) [ASendmail m r].
Proof. unfold mail_footprint, keeps_board. simpl. auto. Qed.

(** Breaks a goal [leaves E mail_footprint m] along the structure of [m]. *)
Ltac footprint_go :=
  repeat first
    [ exact mail_footprint_refl
    | exact mail_footprint_trans
    | match goal with |- forall _, _ => intro end
    | solve [auto]
    | apply leaves_ret
    | apply leaves_raise
    | apply leaves_out_of_fuel
    | apply leaves_ask
    | apply leaves_bind
    | apply leaves_try_except
    | apply leaves_emit; apply mail_footprint_log
    | apply leaves_emit; apply mail_footprint_sleep
    | apply leaves_send_email; intros; apply mail_footprint_sendmail
    | match goal with
      | |- leaves _ _ (if ?b then _ else _) => destruct b
      | |- leaves _ _ (match ?x with _ => _ end) => destruct x
      end ].

Lemma leaves_handle_email_error E fuel email :
  leaves E mail_footprint (Event.handle_email_error fuel email).
Proof.
  unfold Event.handle_email_error. generalize 0.
  induction fuel as [|fuel IH]; intros count.
  - apply leaves_out_of_fuel.
  - cbn [Event.handle_email_error_loop].
    unfold Event.handle_email_error_pass, log, sleep.
    footprint_go.
Qed.

Lemma leaves_handle_error E fuel self error error_message :
  leaves E mail_footprint (Event.handle_error fuel self error error_message).
Proof.
  pose proof (leaves_handle_email_error E fuel) as Hretry.
  unfold Event.handle_error, log. footprint_go.
Qed.

Lemma leaves_notify_recipients E fuel self fd message :
  leaves E mail_footprint (Event.notify_recipients fuel self fd message).
Proof.
  pose proof (leaves_handle_error E fuel self) as Herr.
  unfold Event.notify_recipients, Event.getitem, log. footprint_go.
Qed.

(** X6. A run of [Event.alert] that returns or raises has opened the CSV
    file once, has handed the server one mail for each delivery attempt,
    has left the input status of the board, the pin and the clock alone,
    and has started no thread and waited for no edge. *)
Theorem alert_footprint
    (E : Env) (w : World) (fuel : nat) (ev : Event.t) (ip : string) :
  match Event.alert fuel ev ip E w with
  | Ok _ w' t | Raise _ w' t =>
      keeps_board w w'
      /\ csv_n w' = S (csv_n w)
      /\ smtp_n w' = (length (sends t) + smtp_n w)%nat
      /\ threads_started t = O
      /\ edge_waits t = O
  | OutOfFuel _ => True
  end.
Proof.
  assert (Hstep : forall r : result unit,
    match r with
    | Ok _ w' t | Raise _ w' t => mail_footprint (tick_csv w) w' t
    | OutOfFuel _ => True
    end ->
    match r with
    | Ok _ w' t | Raise _ w' t =>
        keeps_board w w' /\ csv_n w' = S (csv_n w)
        /\ smtp_n w' = (length (sends t) + smtp_n w)%nat
        /\ threads_started t = O /\ edge_waits t = O
    | OutOfFuel _ => True
    end).
  { intros [a w' t|e w' t|t]; try done;
      intros (Hk & Hc & Hs & Ht & He); simpl in *; auto. }
  apply Hstep.
  destruct (lookup_fails_or_finds ip E w) as [[error Herr]|[data Hdata]].
  - rewrite (alert_lookup_fails _ _ _ _ _ _ Herr). apply leaves_handle_error.
  - rewrite (alert_lookup_succeeds _ _ _ _ _ _ Hdata).
    apply leaves_notify_recipients.
Qed.

(* ================================================================== *)
(** * The event thread and the monitor do not interfere *)
(* ================================================================== *)

Lemma map_world_after {A} (f : World -> World) t (r : result A) :
  map_world f (after t r) = after t (map_world f r).
Proof. by destruct r. Qed.

Lemma graft_self w : graft w w = w.
Proof. by destruct w. Qed.

Lemma off_board_ret {A} (a : A) : off_board (ret a).
Proof. by intros E b w. Qed.

Lemma off_board_raise {A} e : off_board (@raise A e).
Proof. by intros E b w. Qed.

Lemma off_board_out_of_fuel {A} : off_board (@out_of_fuel A).
Proof. by intros E b w. Qed.

Lemma off_board_ask {A} (f : Env -> A) : off_board (ask f).
Proof. by intros E b w. Qed.

Lemma off_board_emit a : off_board (emit a).
Proof. by intros E b w. Qed.

Lemma off_board_bind {A B} (m : M A) (k : A -> M B) :
  off_board m -> (forall a, off_board (k a)) -> off_board (bind m k).
Proof.
  intros Hm Hk E b w. unfold bind. rewrite Hm.
  destruct (m E w) as [a w1 t1|e w1 t1|t1]; simpl; try done.
  by rewrite Hk, map_world_after.
Qed.

Lemma off_board_try_except {A} (m : M A) (h : exn -> M A) :
  off_board m -> (forall e, off_board (h e)) -> off_board (try_except m h).
Proof.
  intros Hm Hh E b w. unfold try_except. rewrite Hm.
  destruct (m E w) as [a w1 t1|e w1 t1|t1]; simpl; try done.
  by rewrite Hh, map_world_after.
Qed.

Lemma off_board_send_email email : off_board (Email.send_email email).
Proof.
  intros E b w. unfold Email.send_email. simpl.
  by destruct (smtp_sendmail E (smtp_n w)).
Qed.

Lemma off_board_parse_csv ip self : off_board (FreezerData.parse_csv ip self).
Proof.
  intros E b w. unfold FreezerData.parse_csv, FreezerData.open_csv, bind.
  simpl. destruct (csv_open E (csv_n w)); simpl; [done|].
  by destruct (FreezerData.parse_rows _ _ _ _).
Qed.

(** Breaks a goal [off_board m] along the structure of [m]. *)
Ltac off_board_go :=
  repeat first
    [ match goal with |- forall _, _ => intro end
    | solve [auto]
    | apply off_board_ret
    | apply off_board_raise
    | apply off_board_out_of_fuel
    | apply off_board_ask
    | apply off_board_emit
    | apply off_board_send_email
    | apply off_board_parse_csv
    | apply off_board_bind
    | apply off_board_try_except
    | match goal with
      | |- off_board (if ?b then _ else _) => destruct b
      | |- off_board (match ?x with _ => _ end) => destruct x
      end ].

Lemma off_board_handle_email_error fuel email :
  off_board (Event.handle_email_error fuel email).
Proof.
  unfold Event.handle_email_error. generalize 0.
  induction fuel as [|fuel IH]; intros count.
  - apply off_board_out_of_fuel.
  - cbn [Event.handle_email_error_loop].
    unfold Event.handle_email_error_pass, log, sleep. off_board_go.
Qed.

Lemma off_board_handle_error fuel self error error_message :
  off_board (Event.handle_error fuel self error error_message).
Proof.
  pose proof (off_board_handle_email_error fuel) as Hretry.
  unfold Event.handle_error, log. off_board_go.
Qed.

Lemma off_board_alert fuel self ip : off_board (Event.alert fuel self ip).
Proof.
  pose proof (off_board_handle_error fuel self) as Herr.
  unfold Event.alert, Event.lookup, Event.notify_recipients, Event.getitem,
    log.
  off_board_go.
Qed.

Lemma on_board_monitor_pass : on_board Board.monitor_pass.
Proof.
  intros E w x.
  unfold Board.monitor_pass, Board.initiate_event, bind, log, emit,
    GPIO_wait_for_edge, sleep, Board.get_input_status, GPIO_input,
    Board.set_input_status; simpl.
  by destruct (bool_decide _).
Qed.

Lemma on_board_monitor_loop n : on_board (Board.monitor_loop n).
Proof.
  induction n as [|n IH]; intros E w x; [done|].
  cbn [Board.monitor_loop]. unfold bind. rewrite on_board_monitor_pass.
  destruct (Board.monitor_pass E w) as [a w1 t1|e w1 t1|t1]; simpl; try done.
  rewrite IH. by destruct (Board.monitor_loop n E w1).
Qed.

(** X7. The notification and the monitor work on separate parts of the
    state, so that a run of [Event.alert] and [n] passes of the monitor
    give the same traces and the same final state in either order: the
    monitor makes the same passes before or after the notification, and
    the notification does the same on the board the monitor leaves. *)
Theorem alert_and_monitor_commute
    (E : Env) (w : World) (fuel : nat) (ev : Event.t) (ip : string)
    (n : nat) :
  exists wm tm,
    Board.monitor_loop n E w = Ok tt wm tm
    /\ Event.alert fuel ev ip E wm
       = map_world (graft wm) (Event.alert fuel ev ip E w)
    /\ forall w1 t1,
         Event.alert fuel ev ip E w = Ok tt w1 t1 ->
         Board.monitor_loop n E w1 = Ok tt (graft wm w1) tm
         /\ Event.alert fuel ev ip E wm = Ok tt (graft wm w1) t1.
Proof.
  destruct (monitor_loop_returns n E w) as (wm & tm & Hloop & _).
  exists wm, tm. split; [done|].
  assert (Hwm : graft wm w = wm).
  { pose proof (on_board_monitor_loop n E w w) as H.
    rewrite graft_self, Hloop in H. simpl in H. by injection H as <-. }
  assert (Halert : Event.alert fuel ev ip E wm
                   = map_world (graft wm) (Event.alert fuel ev ip E w)).
  { rewrite <- Hwm at 1. apply off_board_alert. }
  split; [done|].
  intros w1 t1 Hw1. split.
  - assert (Hb : graft w w1 = w1).
    { destruct (alert_keeps_board _ _ _ _ _ _ _ Hw1) as (Hs & Hg & _).
      destruct w, w1. unfold graft. simpl in *. by subst. }
    rewrite <- Hb at 1. rewrite on_board_monitor_loop, Hloop. done.
  - by rewrite Halert, Hw1.
Qed.

(* ================================================================== *)
(** * The passes of the monitor, counted *)
(* ================================================================== *)

Lemma sends_quiet_pass_initiated s :
  sends (quiet_pass ++ event_initiated s) = [].
Proof. done. Qed.

Lemma monitor_loop_counts E n :
  forall w,
    exists w' t,
      Board.monitor_loop n E w = Ok tt w' t
      /\ edge_waits t = n
      /\ (threads_started t <= n)%nat
      /\ gpio_n w' = (n + threads_started t + gpio_n w)%nat
      /\ sends t = []
      /\ smtp_n w' = smtp_n w /\ clock_n w' = clock_n w
      /\ csv_n w' = csv_n w.
Proof.
  induction n as [|n IH]; intros w.
  - exists w, []. by repeat split.
  - cbn [Board.monitor_loop]. unfold bind at 1.
    destruct (decide (input_status w = Some (gpio_input E (gpio_n w))))
      as [H|H].
    + rewrite monitor_pass_same by done.
      destruct (IH (tick_gpio w))
        as (w' & t & -> & He & Ht & Hg & Hs & Hm & Hc & Hf).
      eexists _, _. split; [reflexivity|].
      rewrite edge_waits_app, threads_started_app, sends_app, He, Hs, Hg.
      simpl in *. repeat split; try done; lia.
    + rewrite monitor_pass_differs by done.
      match goal with
      | |- context [Board.monitor_loop n E ?w1] =>
          destruct (IH w1)
            as (w' & t & -> & He & Ht & Hg & Hs & Hm & Hc & Hf)
      end.
      eexists _, _. split; [reflexivity|].
      rewrite edge_waits_app, threads_started_app, sends_app, He, Hs, Hg.
      simpl in *. repeat split; try done; lia.
Qed.

(** The stored level is a value the pin gave, from the read [k0] on. *)
Lemma monitor_loop_level E n :
  forall (k0 : nat) w,
    (exists k, (k0 <= k < gpio_n w)%nat
               /\ input_status w = Some (gpio_input E k)) ->
    exists w' t,
      Board.monitor_loop n E w = Ok tt w' t
      /\ exists k, (k0 <= k < gpio_n w')%nat
                   /\ input_status w' = Some (gpio_input E k).
Proof.
  induction n as [|n IH]; intros k0 w (k & Hk & Hs).
  - exists w, []. split; [done|]. by exists k.
  - cbn [Board.monitor_loop]. unfold bind at 1.
    destruct (decide (input_status w = Some (gpio_input E (gpio_n w))))
      as [H|H].
    + rewrite monitor_pass_same by done.
      destruct (IH k0 (tick_gpio w)) as (w' & t & -> & Hinv).
      { exists k. simpl. split; [lia|done]. }
      eexists _, _. split; [reflexivity|done].
    + rewrite monitor_pass_differs by done.
      match goal with
      | |- context [Board.monitor_loop n E ?w1] =>
          destruct (IH k0 w1) as (w' & t & -> & Hinv)
      end.
      { exists (S (gpio_n w)). simpl. split; [lia|done]. }
      eexists _, _. split; [reflexivity|done].
Qed.

(** X8. In [n] passes of its loop the monitor waits for [n] edges and
    starts at most one thread for each; it reads the pin once a pass and
    once more for each thread it starts; it sends no mail and leaves the
    mail server, the clock and the CSV file alone. And from its start
    on, the input status it holds is never [None]: it is a value that
    one of its reads of the pin gave. *)
Theorem monitor_counts (E : Env) (w : World) (n : nat) :
  (exists w' t,
     Board.monitor_loop n E w = Ok tt w' t
     /\ edge_waits t = n
     /\ (threads_started t <= n)%nat
     /\ gpio_n w' = (n + threads_started t + gpio_n w)%nat
     /\ sends t = []
     /\ smtp_n w' = smtp_n w /\ clock_n w' = clock_n w
     /\ csv_n w' = csv_n w)
  /\ (exists w' t k,
        Board.monitor n E w = Ok tt w' t
        /\ (gpio_n w <= k < gpio_n w')%nat
        /\ input_status w' = Some (gpio_input E k)).
Proof.
  split; [apply monitor_loop_counts|].
  unfold Board.monitor, bind. rewrite monitor_start_run.
  match goal with
  | |- context [Board.monitor_loop n E ?w1] =>
      destruct (monitor_loop_level E n (gpio_n w) w1)
        as (w' & t & -> & k & Hk & Hs)
  end.
  { exists (gpio_n w). simpl. split; [lia|done]. }
  eexists _, _, k. split; [reflexivity|]. by split.
Qed.

(* ================================================================== *)
(** * [ErrorAfterCall] *)
(* ================================================================== *)

Lemma call_n_returns limit n :
  forall c,
    c + Z.of_nat n <= limit ->
    ErrorAfterCall.call_n n (ErrorAfterCall.mk limit c)
    = ErrorAfterCall.Returned (ErrorAfterCall.mk limit (c + Z.of_nat n)).
Proof.
  induction n as [|n IH]; intros c Hc.
  - simpl. by rewrite Z.add_0_r.
  - cbn [ErrorAfterCall.call_n]. unfold ErrorAfterCall.call. simpl.
    rewrite (proj2 (Z.ltb_ge _ _)) by lia.
    rewrite IH by lia. do 2 f_equal. lia.
Qed.

Lemma call_n_exhausted limit n :
  forall c,
    c <= limit < c + Z.of_nat n ->
    ErrorAfterCall.call_n n (ErrorAfterCall.mk limit c)
    = ErrorAfterCall.Exhausted (ErrorAfterCall.mk limit (limit + 1)).
Proof.
  induction n as [|n IH]; intros c Hc; [lia|].
  cbn [ErrorAfterCall.call_n]. unfold ErrorAfterCall.call. simpl.
  destruct (decide (c = limit)) as [->|Hne].
  - by rewrite (proj2 (Z.ltb_lt _ _)) by lia.
  - rewrite (proj2 (Z.ltb_ge _ _)) by lia. apply IH. lia.
Qed.

(** X9. An [ErrorAfterCall] object made with a limit that is not
    negative lets exactly that many calls return: [n] calls in a row
    return when [n] is at most the limit, and otherwise the call after
    the limit raises [CallableExhausted]; and an object whose count has
    reached its limit raises at every call. *)
Theorem error_after_call_allows_limit_calls (limit : Z) (n : nat) :
  0 <= limit ->
  (Z.of_nat n <= limit ->
   ErrorAfterCall.call_n n (ErrorAfterCall.init limit)
   = ErrorAfterCall.Returned (ErrorAfterCall.mk limit (Z.of_nat n)))
  /\ (limit < Z.of_nat n ->
      ErrorAfterCall.call_n n (ErrorAfterCall.init limit)
      = ErrorAfterCall.Exhausted (ErrorAfterCall.mk limit (limit + 1)))
  /\ (forall self,
        ErrorAfterCall.limit self <= ErrorAfterCall.calls self ->
        ErrorAfterCall.call self
        = ErrorAfterCall.Exhausted
            (ErrorAfterCall.mk (ErrorAfterCall.limit self)
                               (ErrorAfterCall.calls self + 1))).
Proof.
  intros Hlimit. split; [|split].
  - intros Hn. unfold ErrorAfterCall.init.
    by rewrite call_n_returns by lia.
  - intros Hn. unfold ErrorAfterCall.init. apply call_n_exhausted. lia.
  - intros self Hself. unfold ErrorAfterCall.call. simpl.
    by rewrite (proj2 (Z.ltb_lt _ _)) by lia.
Qed.

Lemma error_after_call_allows_limit_calls_witness :
  ErrorAfterCall.call_n 3 (ErrorAfterCall.init 3)
  = ErrorAfterCall.Returned (ErrorAfterCall.mk 3 3)
  /\ ErrorAfterCall.call_n 5 (ErrorAfterCall.init 3)
     = ErrorAfterCall.Exhausted (ErrorAfterCall.mk 3 4).
Proof.
  split.
  - apply (error_after_call_allows_limit_calls 3 3); lia.
  - apply (error_after_call_allows_limit_calls 3 5); lia.
Defined.

(* ================================================================== *)
(** * [Board.check_alert] under any clock *)
(* ================================================================== *)

(** [k] passes with the pin HIGH, the clock read after each of the first
    [k - 1] being inside the window and the one after the last outside;
    [c] is the reading that gave [cur]. *)
Lemma check_alert_loop_window E afuel ev end_time :
  alert_returns E afuel ev ->
  forall (k fuel : nat) (w : World) (c : nat) (count : Z),
    clock_n w = S c ->
    (forall i : nat, (i < k)%nat -> clock_now E (i + c) < end_time) ->
    end_time <= clock_now E (k + c) ->
    reads_high E w k ->
    exists w' ts,
      Board.check_alert_loop (k + fuel) afuel ev (clock_now E c) end_time
        count E w
      = Ok tt w' (cycles count ts)
      /\ length ts = k
      /\ Forall (alert_run E afuel ev) ts
      /\ gpio_n w' = (k + gpio_n w)%nat
      /\ input_status w' = input_status w.
Proof.
  intros Hret.
  induction k as [|k IH]; intros fuel w c count Hc Hin Hout Hhigh.
  - exists w, []. rewrite check_alert_loop_over by done.
    repeat split. constructor.
  - destruct (Hret (tick_gpio w)) as (w2 & t & Halert).
    destruct (alert_keeps_board _ _ _ _ _ _ _ Halert) as (Hs & Hg & Hk).
    simpl in Hs, Hg, Hk.
    destruct (IH fuel (tick_clock w2) (S c) (count + 1))
      as (w' & ts & Hloop & Hlen & Hruns & Hg' & Hs').
    + simpl. by rewrite Hk, Hc.
    + intros i Hi. replace (i + S c)%nat with (S i + c)%nat by lia.
      apply Hin. lia.
    + by replace (k + S c)%nat with (S k + c)%nat by lia.
    + intros i Hi. simpl. rewrite Hg.
      replace (i + S (gpio_n w))%nat with (S i + gpio_n w)%nat by lia.
      apply Hhigh. lia.
    + exists w', (t :: ts).
      change (S k + fuel)%nat with (S (k + fuel)).
      rewrite (check_alert_loop_high _ _ _ _ _ _ _ _ w2 t);
        [|apply (Hin O); lia|apply (Hhigh O); lia|done].
      rewrite Hk, Hc, Hloop. cbn [cycles after].
      split; [done|]. split; [simpl; lia|].
      split; [constructor; [by exists (tick_gpio w), w2|done]|].
      simpl in Hg', Hs'. rewrite Hg', Hs', Hg, Hs. split; [lia|done].
Qed.

(** X10. Under any clock, with calls of [event.alert] that return and
    the pin HIGH: [check_alert] sends the notification again once for
    each reading of the clock that is inside the window, the first being
    the one it takes on entry, and ends at the first reading outside. So
    it always sends at least once, and how often depends on how long
    [event.alert] takes. *)
Theorem check_alert_counts_readings_in_window
    (E : Env) (w : World) (fuel : nat) (ev : Event.t) (k : nat) :
  window_closes_at E w k ->
  alert_returns E fuel ev ->
  (k <= fuel)%nat ->
  reads_high E w k ->
  (1 <= k)%nat
  /\ exists w' ts,
       Board.check_alert fuel ev E w
       = Ok tt w' (cycles 0 ts ++ cycle_ended (input_status w))
       /\ length ts = k
       /\ Forall (alert_run E fuel ev) ts
       /\ gpio_n w' = (k + gpio_n w)%nat.
Proof.
  intros [Hin Hout] Hret Hfuel Hhigh.
  split.
  { destruct k; [|lia]. simpl in Hout.
    unfold Board.total_duration, timedelta, sec in Hout. lia. }
  destruct (check_alert_loop_window E fuel ev
              (clock_now E (clock_n w) + Board.total_duration) Hret
              k (fuel - k) (tick_clock w) (clock_n w) 0 eq_refl Hin Hout Hhigh)
    as (w' & ts & Hloop & Hlen & Hruns & Hg & Hs).
  replace (k + (fuel - k))%nat with fuel in Hloop by lia.
  exists w', ts. split; [|by repeat split].
  unfold Board.check_alert, bind, datetime_now. simpl.
  rewrite Hloop. simpl. rewrite Hs. simpl. by rewrite ?app_nil_r.
Qed.

Lemma check_alert_counts_readings_in_window_witness :
  window_closes_at slow_mail (world (Some 1)) 5
  /\ exists w' ts,
       Board.check_alert 5 (Event.mk 0 "ALARM") slow_mail (world (Some 1))
       = Ok tt w' (cycles 0 ts ++ cycle_ended (Some 1))
       /\ length ts = 5%nat.
Proof.
  assert (Hwin : window_closes_at slow_mail (world (Some 1)) 5).
  { split.
    - intros i Hi. simpl.
      unfold Board.total_duration, timedelta, sec. lia.
    - by vm_compute. }
  assert (Hret : alert_returns slow_mail 5 (Event.mk 0 "ALARM")).
  { intros [s g m c v]. vm_compute. eexists _, _. reflexivity. }
  assert (Hhigh : reads_high slow_mail (world (Some 1)) 5) by (by intros i _).
  split; [exact Hwin|].
  destruct (check_alert_counts_readings_in_window slow_mail (world (Some 1)) 5
              (Event.mk 0 "ALARM") 5 Hwin Hret (le_n 5) Hhigh)
    as (_ & w' & ts & Hrun & Hlen & _).
  exists w', ts. split; [exact Hrun|exact Hlen].
Defined.

(** ** The two orders of a notification and two passes of the monitor *)

Lemma alert_and_monitor_commute_witness :
  exists wm tm w1 t1,
    Board.monitor_loop 2 (recovers_after 1) (world (Some 1)) = Ok tt wm tm
    /\ Event.alert 1 (Event.mk 0 "ALARM") "92.168.1.100" (recovers_after 1)
         (world (Some 1))
       = Ok tt w1 t1
    /\ Board.monitor_loop 2 (recovers_after 1) w1 = Ok tt (graft wm w1) tm
    /\ Event.alert 1 (Event.mk 0 "ALARM") "92.168.1.100" (recovers_after 1) wm
       = Ok tt (graft wm w1) t1.
Proof.
  destruct (alert_and_monitor_commute (recovers_after 1) (world (Some 1)) 1
              (Event.mk 0 "ALARM") "92.168.1.100" 2)
    as (wm & tm & Hloop & _ & Hboth).
  destruct (Event.alert 1 (Event.mk 0 "ALARM") "92.168.1.100"
              (recovers_after 1) (world (Some 1)))
    as [[] w1 t1| |] eqn:Halert; [|by vm_compute in Halert..].
  destruct (Hboth w1 t1 eq_refl) as [Hm Ha].
  by exists wm, tm, w1, t1.
Defined.

(* ================================================================== *)
(** * The whole escalation *)
(* ================================================================== *)

(** X11. [Event.handle_error] never raises: it returns after exactly
    one delivery, its last attempt, or is still in the retry loop with
    nothing delivered; and every mail it attempts goes to the address of
    the IT team with the same body. *)
Theorem handle_error_never_raises
    (E : Env) (w : World) (fuel : nat) (self : Event.t) (error : exn)
    (error_message : string) :
  one_delivery (fun _ => False)
    (Event.handle_error fuel self error error_message E w)
  /\ Forall (fun s => msg_to s.1 = Some (it_email E)
                      /\ msg_body s.1 = Event.it_body self E error_message)
       (sends (trace_of
                 (Event.handle_error fuel self error error_message E w))).
Proof.
  split; [apply one_delivery_handle_error|].
  apply Forall_sends.
  set (P := fun a : action => forall m r, a = ASendmail m r ->
     msg_to (m, r).1 = Some (it_email E)
     /\ msg_body (m, r).1 = Event.it_body self E error_message).
  assert (Hsat : sat E P (Event.handle_error fuel self error error_message)).
  { apply sat_handle_error; unfold P; intros; simplify_eq; done. }
  specialize (Hsat w).
  destruct (Event.handle_error _ _ _ _ _ _); simpl in *; tauto.
Qed.

Lemma handle_email_error_delivers_after fuel email E w ds :
  smtp_fails E (smtp_n w) ds ->
  smtp_sendmail E (length ds + smtp_n w) = None ->
  Event.handle_email_error (length ds + S fuel) email E w
  = Ok tt (advance_smtp (S (length ds)) w)
      (failed_passes email 0 ds ++ delivered_pass email).
Proof.
  intros Hf Hok. unfold Event.handle_email_error.
  rewrite handle_email_error_loop_fails by done.
  cbn [Event.handle_email_error_loop].
  rewrite (bind_ok _ _ _ _ _ _ _
    (handle_email_error_pass_delivers email _ E
       (advance_smtp (length ds) w) Hok)).
  cbn [fst]. unfold ret, after. rewrite app_nil_r.
  unfold tick_smtp. by rewrite advance_smtp_advance.
Qed.

(** X12. The whole escalation of one [Event.alert]: when the row is
    found with its columns and the server fails the mail to the owner,
    the mail to the IT team and the next [length ds] retries, and then
    delivers, the run makes one attempt to the owner, one to the IT
    team, and [length ds + 1] retries of the IT message under its new
    subject, and returns after the retry that is delivered. *)
Theorem alert_escalates_until_delivered
    (E : Env) (w : World) (fuel : nat) (ev : Event.t) (ip : string)
    (data : FreezerData.dict) (location recipient : option string)
    (d1 d2 : string) (ds : list string) :
  lookup_data ip E w = Some data ->
  FreezerData.fields data !! "Location" = Some location ->
  FreezerData.fields data !! "Email" = Some recipient ->
  smtp_fails E (smtp_n w) (d1 :: d2 :: ds) ->
  smtp_sendmail E (length (d1 :: d2 :: ds) + smtp_n w) = None ->
  let error_message := failure_to_email recipient in
  let retry := it_retry_email ev E error_message in
  Event.alert (length ds + S fuel) ev ip E w
  = Ok tt (advance_smtp (length (d1 :: d2 :: ds) + 1) (tick_csv w))
      (primary_failed ev E location recipient d1
       ++ it_failed ev E (Exception d1) error_message d2
       ++ failed_passes retry 0 ds ++ delivered_pass retry)
  /\ map (fun s => msg_to s.1)
       (sends (primary_failed ev E location recipient d1
               ++ it_failed ev E (Exception d1) error_message d2
               ++ failed_passes retry 0 ds ++ delivered_pass retry))
     = recipient :: replicate (length ds + 2) (Some (it_email E)).
Proof.
  intros Hdata Hl Hr (H1 & H2 & Hf) Hok error_message retry.
  split.
  - rewrite (alert_lookup_succeeds _ _ _ _ _ _ Hdata).
    rewrite (notify_recipients_failed _ _ _ _ _ _ _ d1 Hl Hr) by done.
    rewrite (handle_error_it_fails _ _ _ _ _ _ d2) by done.
    fold error_message. fold retry.
    rewrite (handle_email_error_delivers_after fuel retry E
               (tick_smtp (tick_smtp (tick_csv w))) ds).
    + cbn [after]. f_equal. unfold tick_smtp.
      rewrite !advance_smtp_advance. f_equal. cbn [length]. lia.
    + exact Hf.
    + simpl in Hok |- *. rewrite <- Hok. f_equal. lia.
  - rewrite !sends_app, sends_failed_passes, !map_app, map_map. simpl.
    f_equal. f_equal.
    replace (length ds + 2)%nat with (S (length ds + 1)) by lia.
    simpl. f_equal. clear.
    induction ds as [|d ds IH]; [done|]. simpl. by rewrite IH.
Qed.

Lemma alert_escalates_until_delivered_witness :
  lookup_data "92.168.1.100"
    (scenario (fun _ => 1) (down_for 3) (fun _ => Some freezer_test_csv))
    (world (Some 1))
  = Some freezer_3
  /\ exists w' t,
       Event.alert 2 (Event.mk 0 "ALARM") "92.168.1.100"
         (scenario (fun _ => 1) (down_for 3) (fun _ => Some freezer_test_csv))
         (world (Some 1))
       = Ok tt w' t
       /\ length (sends t) = 4%nat.
Proof.
  assert (Hdata : lookup_data "92.168.1.100"
    (scenario (fun _ => 1) (down_for 3) (fun _ => Some freezer_test_csv))
    (world (Some 1)) = Some freezer_3) by (by vm_compute).
  split; [exact Hdata|].
  destruct (alert_escalates_until_delivered
              (scenario (fun _ => 1) (down_for 3)
                        (fun _ => Some freezer_test_csv))
              (world (Some 1)) 0 (Event.mk 0 "ALARM") "92.168.1.100"
              freezer_3 (Some "LGRT 3")
              (Some "minus80-Person3@chem.umass.edu")
              "Connection refused" "Connection refused"
              ["Connection refused"] Hdata eq_refl eq_refl)
    as [Hrun Hto].
  - simpl. repeat split; reflexivity.
  - reflexivity.
  - eexists _, _. split; [exact Hrun|].
    apply (f_equal (@length _)) in Hto. rewrite length_map in Hto.
    exact Hto.
Defined.

(* ================================================================== *)
(** * The re-alert cycle and the status the threads share *)
(* ================================================================== *)

(** C1 (amended). The event thread enters the re-alert cycle if and only
    if [event.alert] returns and the input status that the board holds
    at that moment, after whatever passes the monitor has made
    meanwhile, is 1. Neither the delivery of the mail to the owner of
    the freezer nor the status of the event plays a part; only when the
    status is then still what the event was made from is the event of a
    flow that enters the cycle an ALARM. *)
Theorem alert_enters_cycle_iff_returns_and_shared_status_1
    (E : Env) (w : World) (fuel n : nat) :
  (cycle_entered (trace_of (Board.alert_beside_monitor fuel n E w)) = true
   <-> exists w1 t1 w2 t2,
         Event.alert fuel (event_of E w) (ip E) E (tick_clock w)
         = Ok tt w1 t1
         /\ Board.monitor_loop n E w1 = Ok tt w2 t2
         /\ input_status w2 = Some 1)
  /\ (forall w1 t1 w2 t2,
        Event.alert fuel (event_of E w) (ip E) E (tick_clock w)
        = Ok tt w1 t1 ->
        Board.monitor_loop n E w1 = Ok tt w2 t2 ->
        input_status w2 = input_status w ->
        cycle_entered (trace_of (Board.alert_beside_monitor fuel n E w))
        = true ->
        Event.get_event_status (event_of E w) = "ALARM").
Proof.
  assert (Hiff :
    cycle_entered (trace_of (Board.alert_beside_monitor fuel n E w)) = true
    <-> exists w1 t1 w2 t2,
          Event.alert fuel (event_of E w) (ip E) E (tick_clock w)
          = Ok tt w1 t1
          /\ Board.monitor_loop n E w1 = Ok tt w2 t2
          /\ input_status w2 = Some 1).
  { unfold Board.alert_beside_monitor, bind.
    pose proof (alert_notify_quiet fuel E w) as Hq.
    rewrite alert_notify_run in Hq |- *.
    destruct (Event.alert _ _ _ _ _) as [[] w1 t1|e w1 t1|t1]; simpl in *.
    - destruct Hq as (_ & _ & Ht1).
      destruct (monitor_loop_returns n E w1) as (w2 & t2 & Hloop & Ht2).
      rewrite Hloop. simpl.
      rewrite !trace_of_after, !cycle_entered_app, Ht1.
      rewrite (cycle_entered_false t2) by done. simpl.
      rewrite alert_cycle_entered. split.
      + intros Hs. by exists w1, t1, w2, t2.
      + intros (w1' & t1' & w2' & t2' & Heq & Hloop' & Hs).
        injection Heq as <- <-. rewrite Hloop in Hloop'.
        by injection Hloop' as <- <-.
    - rewrite Hq. split; [done|]. by intros (? & ? & ? & ? & ? & _).
    - rewrite Hq. split; [done|]. by intros (? & ? & ? & ? & ? & _). }
  split; [exact Hiff|].
  intros w1 t1 w2 t2 Halert Hloop Hsame Hentered.
  apply Hiff in Hentered as (w1' & t1' & w2' & t2' & Heq & Hloop' & Hs).
  rewrite Halert in Heq. injection Heq as <- <-.
  rewrite Hloop in Hloop'. injection Hloop' as <- <-.
  unfold event_of, Event.init. by rewrite <- Hsame, Hs.
Qed.

Lemma alert_enters_cycle_iff_returns_and_shared_status_1_witness :
  exists w1 t1 w2 t2,
    Event.alert 10 (event_of all_well (world (Some 1))) (ip all_well) all_well
      (tick_clock (world (Some 1)))
    = Ok tt w1 t1
    /\ Board.monitor_loop 1 all_well w1 = Ok tt w2 t2
    /\ input_status w2 = input_status (world (Some 1))
    /\ Event.get_event_status (event_of all_well (world (Some 1))) = "ALARM".
Proof.
  destruct (Event.alert 10 (event_of all_well (world (Some 1))) (ip all_well)
              all_well (tick_clock (world (Some 1))))
    as [[] w1 t1| |] eqn:Halert; [|by vm_compute in Halert..].
  destruct (Board.monitor_loop 1 all_well w1)
    as [[] w2 t2| |] eqn:Hloop;
    [|vm_compute in Halert; injection Halert as <- <-;
      by vm_compute in Hloop..].
  assert (Hsame : input_status w2 = input_status (world (Some 1))).
  { vm_compute in Halert. injection Halert as <- <-.
    vm_compute in Hloop. by injection Hloop as <- <-. }
  assert (Hin : cycle_entered
    (trace_of (Board.alert_beside_monitor 10 1 all_well (world (Some 1))))
    = true) by (by vm_compute).
  exists w1, t1, w2, t2.
  split; [reflexivity|]. split; [exact Hloop|]. split; [exact Hsame|].
  exact (proj2 (alert_enters_cycle_iff_returns_and_shared_status_1 all_well
                  (world (Some 1)) 10 1) w1 t1 w2 t2 Halert Hloop Hsame Hin).
Defined.

(* ================================================================== *)
(** * The mails of the re-alert cycle *)
(* ================================================================== *)

(** A run of [Event.alert] whose lookup finds the row and whose mail to
    the owner of the freezer is taken by the server. *)
Lemma alert_owner_delivered fuel ev ip E w data location recipient :
  lookup_data ip E w = Some data ->
  FreezerData.fields data !! "Location" = Some location ->
  FreezerData.fields data !! "Email" = Some recipient ->
  smtp_sendmail E (smtp_n w) = None ->
  Event.alert fuel ev ip E w
  = Ok tt (tick_smtp (tick_csv w)) (primary_delivered ev E location recipient).
Proof.
  intros Hdata Hl Hr Hs.
  rewrite (alert_lookup_succeeds _ _ _ _ _ _ Hdata).
  by rewrite (notify_recipients_delivered _ _ _ _ _ _ _ Hl Hr).
Qed.

Lemma sends_cycles_replicate count j t m :
  sends t = [m] -> sends (cycles count (replicate j t)) = replicate j m.
Proof.
  intros Ht. rewrite sends_cycles.
  induction j as [|j IH]; [done|].
  cbn [replicate map concat]. by rewrite Ht, IH.
Qed.

(** Whether the owner is reached depends on the world only through the
    state of the file and of the mail server. *)
Lemma owner_reached_same E w2 w n location recipient :
  csv_n w2 = csv_n w ->
  smtp_n w2 = smtp_n w ->
  owner_reached E w n location recipient ->
  owner_reached E w2 n location recipient.
Proof.
  intros Hf Hm Hown k Hk.
  destruct (Hown k Hk) as [(data & Hdata & Hl & Hr) Hs].
  split; [|by rewrite Hm].
  exists data. split; [|done].
  rewrite <- Hdata. apply lookup_data_same_file. simpl. by rewrite Hf.
Qed.

(** [j] passes with the pin HIGH inside the window, each of which
    reaches the owner of the freezer at once. *)
Lemma check_alert_loop_delivers E afuel ev end_time location recipient :
  forall (j fuel : nat) (w : World) (cur count : Z),
    cur + Z.of_nat j * Board.sub_interval <= end_time ->
    (forall k : nat,
       clock_now E (k + clock_n w)
       = cur + (Z.of_nat k + 1) * Board.sub_interval) ->
    reads_high E w j ->
    owner_reached E w j location recipient ->
    exists w',
      Board.check_alert_loop (j + fuel) afuel ev cur end_time count E w
      = after (cycles count
                 (replicate j (primary_delivered ev E location recipient)))
          (Board.check_alert_loop fuel afuel ev
             (cur + Z.of_nat j * Board.sub_interval) end_time
             (count + Z.of_nat j) E w')
      /\ gpio_n w' = (j + gpio_n w)%nat
      /\ smtp_n w' = (j + smtp_n w)%nat
      /\ input_status w' = input_status w.
Proof.
  pose proof sub_interval_pos as Hpos.
  induction j as [|j IH]; intros fuel w cur count Hroom Hclock Hhigh Hown.
  - exists w. rewrite after_nil.
    replace (cur + Z.of_nat 0 * Board.sub_interval) with cur by lia.
    replace (count + Z.of_nat 0) with count by lia.
    by repeat split.
  - destruct (Hown O) as [(data & Hdata & Hl & Hr) Hs]; [lia|].
    cbn [Nat.add] in Hs.
    assert (Halert : Event.alert afuel ev (ip E) E (tick_gpio w)
      = Ok tt (tick_smtp (tick_csv (tick_gpio w)))
          (primary_delivered ev E location recipient)).
    { apply (alert_owner_delivered _ _ _ _ _ data); try done.
      by rewrite (lookup_data_same_file _ _ _ (at_file 0 w)). }
    set (w2 := tick_smtp (tick_csv (tick_gpio w))) in *.
    assert (Hnow : clock_now E (clock_n w2) = cur + Board.sub_interval).
    { pose proof (Hclock O) as H0. cbn [Nat.add] in H0.
      change (clock_n w2) with (clock_n w). rewrite H0. lia. }
    destruct (IH fuel (tick_clock w2) (cur + Board.sub_interval) (count + 1))
      as (w' & Hloop & Hg' & Hm' & Hs').
    + lia.
    + intros k. change (clock_n (tick_clock w2)) with (S (clock_n w)).
      replace (k + S (clock_n w))%nat with (S k + clock_n w)%nat by lia.
      rewrite Hclock. lia.
    + intros k Hk. change (gpio_n (tick_clock w2)) with (S (gpio_n w)).
      replace (k + S (gpio_n w))%nat with (S k + gpio_n w)%nat by lia.
      apply Hhigh. lia.
    + intros k Hk.
      destruct (Hown (S k)) as [(data' & Hdata' & Hl' & Hr') Hs'']; [lia|].
      split.
      * exists data'. split; [|done].
        rewrite <- Hdata'. apply lookup_data_same_file. simpl. lia.
      * change (smtp_n (tick_clock w2)) with (S (smtp_n w)).
        by replace (k + S (smtp_n w))%nat with (S k + smtp_n w)%nat by lia.
    + exists w'.
      change (S j + fuel)%nat with (S (j + fuel)).
      rewrite (check_alert_loop_high _ _ _ _ _ _ _ _ w2
                 (primary_delivered ev E location recipient));
        [|lia|apply (Hhigh O); lia|exact Halert].
      rewrite Hnow, Hloop, after_after. cbn [cycles replicate].
      replace (cur + Board.sub_interval + Z.of_nat j * Board.sub_interval)
        with (cur + Z.of_nat (S j) * Board.sub_interval) by lia.
      replace (count + 1 + Z.of_nat j) with (count + Z.of_nat (S j)) by lia.
      split; [done|].
      rewrite Hg', Hm', Hs'. simpl. repeat split; lia.
Qed.

(** The cycle whose first read of the pin is not HIGH. *)
Lemma check_alert_low_first fuel ev E w :
  gpio_input E (gpio_n w) <> 1 ->
  Board.check_alert (S fuel) ev E w
  = Ok tt (tick_gpio (tick_clock w))
      (recovery_noted ++ cycle_ended (input_status w)).
Proof.
  intros Hlow. unfold Board.check_alert, bind at 1, datetime_now at 1.
  unfold bind at 1.
  rewrite check_alert_loop_low;
    [|unfold Board.total_duration, timedelta, sec; lia|done].
  done.
Qed.

(** C2 (counterexample). The clock advances by the step of the cycle and
    every fresh read of the pin is HIGH, and yet the cycle makes twelve
    delivery attempts, not six: each mail to the owner of the freezer is
    refused and followed by the mail to the IT team. *)
Lemma check_alert_owner_refused_twelve_attempts :
  ideal_clock owner_refused (world (Some 1))
  /\ reads_high owner_refused (world (Some 1)) 6
  /\ Z.to_nat (Board.total_duration / Board.sub_interval) = 6%nat
  /\ exists w' t,
       Board.check_alert 6 (Event.mk 0 "ALARM") owner_refused (world (Some 1))
       = Ok tt w' t
       /\ length (sends t) = 12%nat
       /\ map (fun s => (msg_to s.1, s.2)) (take 2 (sends t))
          = [ (Some "minus80-Person3@chem.umass.edu",
               Some "Connection refused");
              (Some "it@test.edu", None) ].
Proof.
  split; [intros k; simpl; lia|]. split; [by intros k _|].
  split; [done|].
  vm_compute. eexists _, _. repeat split.
Qed.

(** C2 (amended). In [Board.check_alert], with a clock that advances by
    exactly the step of the cycle from one reading to the next, and when
    each re-alert reaches the owner of the freezer at once (the lookup
    finds the row with its [Location] and [Email], and the server takes
    the mail): if the six fresh reads of the pin in the window are HIGH,
    the delivery attempts of the cycle are exactly six, the window (60 s)
    divided by the step (10 s), each the mail to the owner, delivered,
    and the cycle ends; if [j < 6] reads are HIGH and the next is not,
    the cycle ends at that read, which is its last, and its delivery
    attempts are the [j] mails of the passes before: none on that pass
    and none after. *)
Theorem check_alert_resends_to_owner
    (E : Env) (w : World) (fuel : nat) (ev : Event.t)
    (location recipient : option string) :
  ideal_clock E w ->
  (6 <= fuel)%nat ->
  let mail := (primary_message ev E location recipient, @None string) in
  let pass := primary_delivered ev E location recipient in
  (reads_high E w 6 ->
   owner_reached E w 6 location recipient ->
   exists w',
     Board.check_alert fuel ev E w
     = Ok tt w' (cycles 0 (replicate 6 pass) ++ cycle_ended (input_status w))
     /\ sends (cycles 0 (replicate 6 pass) ++ cycle_ended (input_status w))
        = replicate (Z.to_nat (Board.total_duration / Board.sub_interval))
            mail
     /\ Z.to_nat (Board.total_duration / Board.sub_interval) = 6%nat
     /\ gpio_n w' = (6 + gpio_n w)%nat
     /\ smtp_n w' = (6 + smtp_n w)%nat)
  /\ (forall j : nat,
        (j < 6)%nat ->
        reads_high E w j ->
        gpio_input E (j + gpio_n w) <> 1 ->
        owner_reached E w j location recipient ->
        exists w',
          Board.check_alert fuel ev E w
          = Ok tt w'
              (cycles 0 (replicate j pass) ++ recovery_noted
               ++ cycle_ended (input_status w))
          /\ sends (cycles 0 (replicate j pass) ++ recovery_noted
                    ++ cycle_ended (input_status w))
             = replicate j mail
          /\ gpio_n w' = (S j + gpio_n w)%nat
          /\ smtp_n w' = (j + smtp_n w)%nat).
Proof.
  intros Hclock Hfuel mail pass.
  assert (Hstart : forall k : nat,
    clock_now E (k + clock_n (tick_clock w))
    = clock_now E (clock_n w) + (Z.of_nat k + 1) * Board.sub_interval).
  { intros k. simpl.
    replace (k + S (clock_n w))%nat with (S k + clock_n w)%nat by lia.
    rewrite Hclock. lia. }
  assert (Hpass : sends pass = [mail]) by done.
  split.
  - intros Hhigh Hown.
    destruct (check_alert_loop_delivers E fuel ev
                (clock_now E (clock_n w) + Board.total_duration)
                location recipient
                6 (fuel - 6) (tick_clock w) (clock_now E (clock_n w)) 0)
      as (w' & Hloop & Hg & Hm & Hs);
      [done|exact Hstart|exact Hhigh
      |by apply (owner_reached_same _ _ w)|].
    replace (6 + (fuel - 6))%nat with fuel in Hloop by lia.
    rewrite (check_alert_loop_over (fuel - 6)) in Hloop
      by (unfold Board.total_duration, Board.sub_interval, timedelta, sec; lia).
    exists w'. split; [|split; [|split; [done|split; [exact Hg|exact Hm]]]].
    + unfold Board.check_alert, bind, datetime_now. simpl.
      fold pass in Hloop. rewrite Hloop. simpl. rewrite Hs. simpl.
      by rewrite ?app_nil_r.
    + rewrite sends_app, (sends_cycles_replicate _ _ _ mail Hpass). simpl.
      by rewrite ?app_nil_r.
  - intros j Hj Hhigh Hlow Hown.
    destruct (check_alert_loop_delivers E fuel ev
                (clock_now E (clock_n w) + Board.total_duration)
                location recipient
                j (S (fuel - S j)) (tick_clock w) (clock_now E (clock_n w)) 0)
      as (w' & Hloop & Hg & Hm & Hs).
    { unfold Board.total_duration, Board.sub_interval, timedelta, sec. lia. }
    { exact Hstart. }
    { exact Hhigh. }
    { by apply (owner_reached_same _ _ w). }
    replace (j + S (fuel - S j))%nat with fuel in Hloop by lia.
    rewrite (check_alert_loop_low (fuel - S j)) in Hloop.
    + exists (tick_gpio w'). split; [|split; [|split]].
      * unfold Board.check_alert, bind, datetime_now. simpl.
        fold pass in Hloop. rewrite Hloop. simpl. rewrite Hs. simpl.
        by rewrite ?app_nil_r, <- ?app_assoc.
      * rewrite sends_app, (sends_cycles_replicate _ _ _ mail Hpass). simpl.
        by rewrite ?app_nil_r.
      * simpl in Hg |- *. by rewrite Hg.
      * exact Hm.
    + unfold Board.total_duration, Board.sub_interval, timedelta, sec. lia.
    + simpl in Hg. by rewrite Hg.
Qed.

(** ** The cycle: six mails to the owner *)

Lemma check_alert_resends_to_owner_witness :
  ideal_clock all_well (world (Some 1))
  /\ reads_high all_well (world (Some 1)) 6
  /\ owner_reached all_well (world (Some 1)) 6 (Some "LGRT 3")
       (Some "minus80-Person3@chem.umass.edu")
  /\ exists w',
       Board.check_alert 6 (Event.mk 0 "ALARM") all_well (world (Some 1))
       = Ok tt w'
           (cycles 0
              (replicate 6
                 (primary_delivered (Event.mk 0 "ALARM") all_well
                    (Some "LGRT 3") (Some "minus80-Person3@chem.umass.edu")))
            ++ cycle_ended (Some 1))
       /\ smtp_n w' = 6%nat.
Proof.
  assert (Hclock : ideal_clock all_well (world (Some 1))).
  { intros k. simpl. lia. }
  assert (Hhigh : reads_high all_well (world (Some 1)) 6) by (by intros k _).
  assert (Hown : owner_reached all_well (world (Some 1)) 6 (Some "LGRT 3")
                   (Some "minus80-Person3@chem.umass.edu")).
  { intros k _. split; [|done]. exists freezer_3. by vm_compute. }
  split; [exact Hclock|]. split; [exact Hhigh|]. split; [exact Hown|].
  destruct (check_alert_resends_to_owner all_well (world (Some 1)) 6
              (Event.mk 0 "ALARM") (Some "LGRT 3")
              (Some "minus80-Person3@chem.umass.edu") Hclock (le_n 6))
    as [Hsix _].
  destruct (Hsix Hhigh Hown) as (w' & Hrun & _ & _ & _ & Hm).
  exists w'. split; [exact Hrun|exact Hm].
Defined.

(* ================================================================== *)
(** * A mail to the owner that fails, a mail to the IT team that is
      delivered *)
(* ================================================================== *)

(** C4 (amended). When the lookup succeeds, the mail to the owner fails
    and the next mail, to the IT team, is delivered, the run of
    [Event.alert] makes exactly these two delivery attempts and returns.
    What the whole flow then does is decided by the input status the
    board holds at that moment, after whatever passes the monitor has
    made meanwhile, which send no mail: when it is not 1 the flow
    returns with exactly these two attempts; when it is 1,
    [check_alert] is entered, and the attempts of the flow are these two
    followed by those of the cycle, which are none when the first fresh
    read of the pin is not HIGH. *)
Theorem primary_fails_it_delivers_two_attempts
    (E : Env) (w : World) (fuel n : nat) (data : FreezerData.dict)
    (location recipient : option string) (d : string) :
  lookup_data (ip E) E w = Some data ->
  FreezerData.fields data !! "Location" = Some location ->
  FreezerData.fields data !! "Email" = Some recipient ->
  smtp_sendmail E (smtp_n w) = Some d ->
  smtp_sendmail E (S (smtp_n w)) = None ->
  let self := event_of E w in
  let two :=
    [ (primary_message self E location recipient, Some d);
      (it_message self E (failure_to_email recipient), None) ] in
  exists w1 t1 w2 t2,
    Event.alert fuel self (ip E) E (tick_clock w) = Ok tt w1 t1
    /\ w1 = advance_smtp 2 (tick_csv (tick_clock w))
    /\ sends t1 = two
    /\ Board.monitor_loop n E w1 = Ok tt w2 t2
    /\ sends t2 = []
    /\ (input_status w2 <> Some 1 ->
        Board.alert_beside_monitor fuel n E w = Ok tt w2 (t1 ++ t2)
        /\ sends (t1 ++ t2) = two)
    /\ (input_status w2 = Some 1 ->
        Board.alert_beside_monitor fuel n E w
        = after (t1 ++ t2 ++ [cycle_start]) (Board.check_alert fuel self E w2)
        /\ sends (trace_of (Board.alert_beside_monitor fuel n E w))
           = two ++ sends (trace_of (Board.check_alert fuel self E w2)))
    /\ (input_status w2 = Some 1 ->
        gpio_input E (gpio_n w2) <> 1 ->
        (1 <= fuel)%nat ->
        exists w3 t3,
          Board.alert_beside_monitor fuel n E w = Ok tt w3 t3
          /\ sends t3 = two).
Proof.
  intros Hdata Hl Hr Hs1 Hs2 self two.
  assert (Halert : Event.alert fuel self (ip E) E (tick_clock w)
    = Ok tt (advance_smtp 2 (tick_csv (tick_clock w)))
        (primary_failed self E location recipient d
         ++ it_delivered self E (Exception d) (failure_to_email recipient))).
  { apply (alert_primary_fails_it_delivers _ _ _ _ _ data); try done.
    by rewrite (lookup_data_same_file _ _ _ w). }
  set (w1 := advance_smtp 2 (tick_csv (tick_clock w))) in *.
  set (t1 := primary_failed self E location recipient d
             ++ it_delivered self E (Exception d)
                  (failure_to_email recipient)) in *.
  assert (Ht1 : sends t1 = two) by done.
  destruct (monitor_loop_counts E n w1)
    as (w2 & t2 & Hloop & _ & _ & _ & Ht2 & _).
  assert (Hrun : Board.alert_beside_monitor fuel n E w
                 = after (t1 ++ t2) (Board.alert_cycle fuel self E w2)).
  { unfold Board.alert_beside_monitor. unfold bind at 1.
    rewrite alert_notify_run. fold self. rewrite Halert.
    unfold bind at 1. rewrite Hloop. by rewrite after_after. }
  exists w1, t1, w2, t2.
  split; [exact Halert|]. split; [done|]. split; [exact Ht1|].
  split; [exact Hloop|]. split; [exact Ht2|].
  rewrite Hrun, alert_cycle_run. split; [|split].
  - intros Hstatus.
    destruct (py_eq (input_status w2) 1) eqn:Hpy;
      [by apply py_eq_1 in Hpy|].
    split; [by simpl; rewrite app_nil_r|].
    by rewrite sends_app, Ht1, Ht2, app_nil_r.
  - intros Hstatus. rewrite (proj2 (py_eq_1 _) Hstatus).
    rewrite after_after, <- app_assoc. split; [done|].
    rewrite trace_of_after, !sends_app, Ht1, Ht2. done.
  - intros Hstatus Hlow Hfuel. rewrite (proj2 (py_eq_1 _) Hstatus).
    destruct fuel as [|fuel]; [lia|].
    rewrite check_alert_low_first by done.
    eexists _, _. split; [reflexivity|].
    rewrite !sends_app, Ht1, Ht2. done.
Qed.

(** ** A RECOVERY whose mail to the owner fails *)

Lemma primary_fails_it_delivers_two_attempts_witness :
  lookup_data (ip primary_down) primary_down (world (Some 0)) = Some freezer_3
  /\ smtp_sendmail primary_down 0 = Some "Connection refused"
  /\ smtp_sendmail primary_down 1 = None
  /\ exists w' t,
       Board.alert_beside_monitor 1 0 primary_down (world (Some 0))
       = Ok tt w' t
       /\ length (sends t) = 2%nat.
Proof.
  assert (Hdata : lookup_data (ip primary_down) primary_down (world (Some 0))
                  = Some freezer_3) by (by vm_compute).
  split; [exact Hdata|]. split; [reflexivity|]. split; [reflexivity|].
  destruct (primary_fails_it_delivers_two_attempts primary_down
              (world (Some 0)) 1 0 freezer_3 (Some "LGRT 3")
              (Some "minus80-Person3@chem.umass.edu") "Connection refused"
              Hdata eq_refl eq_refl eq_refl eq_refl)
    as (w1 & t1 & w2 & t2 & _ & Hw1 & _ & Hloop & _ & Hquiet & _).
  injection Hloop as <- <-.
  destruct Hquiet as [Hrun Hsends]; [by rewrite Hw1|].
  exists w1, (t1 ++ []). split; [exact Hrun|]. by rewrite Hsends.
Defined.

(* ================================================================== *)
(** * A lookup that fails *)
(* ================================================================== *)

(** C5 (counterexample). The lookup fails and the mail to the IT team
    is refused: the retry loop is entered, and what it sends, and the
    server then takes, is not that same message: its subject is another
    one. *)
Lemma lookup_failure_retry_under_other_subject :
  lookup_error (ip no_csv_down) no_csv_down (world (Some 1))
  = Some FileNotFoundError
  /\ exists w' t first again,
       Event.alert 1 (Event.mk 0 "ALARM") (ip no_csv_down) no_csv_down
         (world (Some 1))
       = Ok tt w' t
       /\ sends t = [ (first, Some "Connection refused"); (again, None) ]
       /\ msg_to first = Some "it@test.edu"
       /\ msg_to again = Some "it@test.edu"
       /\ msg_subject first = "!!! -80 ALERT !!! Failed to parse CSV file"
       /\ msg_subject again = "Failed to parse CSV file AND email IT team"
       /\ first <> again.
Proof.
  split; [by vm_compute|].
  vm_compute. eexists _, _, _, _.
  split; [reflexivity|]. split; [reflexivity|].
  repeat split. intros H. discriminate H.
Qed.

(** C5 (amended). When the lookup fails (the CSV file cannot be opened
    or read, a row has no [IP] column, or no row is found),
    [Event.alert] makes no attempt to notify the owner of the freezer:
    it is [handle_error] on the failure. Its first delivery attempt is
    the message to the IT team, and it is the only one if it is
    delivered. If it is not, the retry loop is entered, and every
    further attempt is a message to the same recipient with the same
    body, but under another subject: the error message followed by
    [ AND email IT team], without the prefix of the alert. *)
Theorem alert_lookup_failure_notifies_it_only
    (E : Env) (w : World) (fuel : nat) (self : Event.t) (ip : string)
    (error : exn) :
  lookup_error ip E w = Some error ->
  let error_message := "Failed to parse CSV file" in
  let first := it_message self E error_message in
  let again := Email.message (it_retry_email self E error_message) in
  Event.alert fuel self ip E w
  = Event.handle_error fuel self error error_message E (tick_csv w)
  /\ (exists r retries,
        sends (trace_of (Event.alert fuel self ip E w))
        = (first, r) :: retries
        /\ Forall (fun s => s.1 = again) retries
        /\ (r = None -> retries = []))
  /\ msg_to first = Some (it_email E)
  /\ msg_to again = msg_to first
  /\ msg_body again = msg_body first
  /\ msg_subject first = "!!! -80 ALERT !!! Failed to parse CSV file"
  /\ msg_subject again = "Failed to parse CSV file AND email IT team"
  /\ (smtp_sendmail E (smtp_n w) = None ->
      exists w' t,
        Event.alert fuel self ip E w = Ok tt w' t
        /\ sends t = [(first, None)])
  /\ (forall d, smtp_sendmail E (smtp_n w) = Some d ->
      Event.alert fuel self ip E w
      = after (it_failed self E error error_message d)
          (Event.handle_email_error fuel
             (it_retry_email self E error_message) E
             (tick_smtp (tick_csv w)))
      /\ sends (trace_of (Event.alert fuel self ip E w))
         = (first, Some d)
           :: sends (trace_of
                (Event.handle_email_error fuel
                   (it_retry_email self E error_message) E
                   (tick_smtp (tick_csv w))))).
Proof.
  intros Hfail error_message first again.
  pose proof (alert_lookup_fails fuel self ip E w error Hfail) as Halert.
  fold error_message in Halert. rewrite Halert.
  assert (Hretries : Forall (fun s => s.1 = again)
    (sends (trace_of (Event.handle_email_error fuel
        (it_retry_email self E error_message) E (tick_smtp (tick_csv w)))))).
  { apply Forall_sends.
    set (P := fun a : action => forall m r, a = ASendmail m r ->
                (m, r).1 = again).
    assert (Hsat : sat E P
      (Event.handle_email_error fuel (it_retry_email self E error_message))).
    { apply sat_handle_email_error; unfold P; intros; simplify_eq; done. }
    specialize (Hsat (tick_smtp (tick_csv w))).
    destruct (Event.handle_email_error _ _ _ _); simpl in *; tauto. }
  assert (Hfailed : forall d, smtp_sendmail E (smtp_n w) = Some d ->
    Event.handle_error fuel self error error_message E (tick_csv w)
    = after (it_failed self E error error_message d)
        (Event.handle_email_error fuel
           (it_retry_email self E error_message) E
           (tick_smtp (tick_csv w)))
    /\ sends (trace_of
         (Event.handle_error fuel self error error_message E (tick_csv w)))
       = (first, Some d)
         :: sends (trace_of
              (Event.handle_email_error fuel
                 (it_retry_email self E error_message) E
                 (tick_smtp (tick_csv w))))).
  { intros d Hs.
    rewrite (handle_error_it_fails _ _ _ _ _ _ d) by done.
    split; [done|]. by rewrite trace_of_after, sends_app. }
  split; [done|]. split; [|repeat split].
  - destruct (smtp_sendmail E (smtp_n w)) as [d|] eqn:Hs.
    + destruct (Hfailed d eq_refl) as [_ ->].
      eexists _, _. split; [reflexivity|]. split; [exact Hretries|done].
    + rewrite handle_error_it_delivered by done.
      exists None, []. by repeat split.
  - intros Hs. eexists _, _. split.
    + by apply handle_error_it_delivered.
    + done.
  - by apply Hfailed.
  - by apply Hfailed.
Qed.

(** ** A failed lookup: there is no CSV file *)

Lemma alert_lookup_failure_notifies_it_only_witness :
  lookup_error "92.168.1.100" no_csv (world (Some 1)) = Some FileNotFoundError
  /\ Event.alert 1 (Event.mk 0 "ALARM") "92.168.1.100" no_csv (world (Some 1))
     = Event.handle_error 1 (Event.mk 0 "ALARM") FileNotFoundError
         "Failed to parse CSV file" no_csv (tick_csv (world (Some 1))).
Proof.
  split; [reflexivity|].
  apply (alert_lookup_failure_notifies_it_only no_csv (world (Some 1)) 1
           (Event.mk 0 "ALARM") "92.168.1.100" FileNotFoundError).
  reflexivity.
Defined.
